(** * english-words-frequency-parser: crawl-and-count engine

    A shallow embedding of [app/english_words_parser.py] (class
    [EnglishWordsParser]) and of the record reader of
    [app/part_of_speech_analyzer.py] ([PartOfSpeechAnalyzer.process_file]),
    with the properties of the crawl state, the word table and the
    [word:count] file format.

    Python values are modelled as follows.
    - [str]: [string]; a character is a code point below 256.
    - [list]: [list], [append] adds at the end, [pop(0)] removes the head.
    - [dict] / [defaultdict(int)]: an association list in insertion order
      (the order of a Python dict), keys kept unique by the operations.
    - [int]: [nat] for the counts of the crawler, which start at 0 and
      only grow, and [Z] for the numbers that [int()] reads from a file.
    - exceptions: the [Raise] case of [result].
    - [print]: left out (no state of the crawler depends on it). *)

From Stdlib Require Import List String Ascii Bool Arith ZArith Lia.
From Stdlib Require Import Permutation Sorted.
From Stdlib Require Import DecimalString DecimalNat.
Import ListNotations.
Open Scope string_scope.
Open Scope list_scope.
Open Scope nat_scope.

(** ** Python [str] methods used by the program *)

Module Py.

Definition code (c : ascii) : nat := nat_of_ascii c.

Definition between (lo hi : nat) (c : ascii) : bool :=
  (lo <=? code c) && (code c <=? hi).

(** [c.isspace()]: the white space of [str.split()] and [str.strip()];
    among the code points below 256 these are TAB..CR, FS..US, SPACE,
    NEL (0x85) and NBSP (0xA0). *)
Definition isspace (c : ascii) : bool :=
  between 9 13 c || between 28 32 c || (code c =? 133) || (code c =? 160).

Definition ascii_upper (c : ascii) : bool := between 65 90 c.
Definition ascii_lower (c : ascii) : bool := between 97 122 c.
Definition ascii_letter (c : ascii) : bool := ascii_upper c || ascii_lower c.

(** [c.isalpha()] on the code points below 256: the ASCII letters and the
    Latin-1 letters. *)
Definition char_isalpha (c : ascii) : bool :=
  ascii_letter c || (code c =? 170) || (code c =? 181) || (code c =? 186)
  || between 192 214 c || between 216 246 c || between 248 255 c.

Definition char_isascii (c : ascii) : bool := code c <? 128.

(** [c.lower()] on the code points below 256. *)
Definition char_lower (c : ascii) : ascii :=
  if ascii_upper c || between 192 214 c || between 216 222 c
  then ascii_of_nat (code c + 32) else c.

Fixpoint all (p : ascii -> bool) (s : string) : bool :=
  match s with
  | EmptyString => true
  | String c s' => p c && all p s'
  end.

Fixpoint contains (c : ascii) (s : string) : bool :=
  match s with
  | EmptyString => false
  | String c' s' => Ascii.eqb c c' || contains c s'
  end.

Definition nonempty (s : string) : bool :=
  match s with EmptyString => false | String _ _ => true end.

(** [s.isalpha()]: at least one character and all of them alphabetic. *)
Definition isalpha (s : string) : bool := nonempty s && all char_isalpha s.

(** [s.isascii()]. *)
Definition isascii (s : string) : bool := all char_isascii s.

(** [s.lower()]. *)
Fixpoint lower (s : string) : string :=
  match s with
  | EmptyString => EmptyString
  | String c s' => String (char_lower c) (lower s')
  end.

(** [s.split()] with no separator: the maximal runs of characters that are
    not white space, in order; [tok] is the run being read. *)
Fixpoint split_from (tok s : string) : list string :=
  match s with
  | EmptyString => if nonempty tok then [tok] else []
  | String c s' =>
      if isspace c
      then (if nonempty tok then tok :: split_from EmptyString s'
            else split_from EmptyString s')
      else split_from (tok ++ String c EmptyString)%string s'
  end.

Definition split (s : string) : list string := split_from EmptyString s.

(** [s.split(sep)] for a one-character separator: every occurrence cuts,
    empty fields are kept, the result has at least one field. *)
Fixpoint split_on (sep : ascii) (s : string) : list string :=
  match s with
  | EmptyString => [EmptyString]
  | String c s' =>
      if Ascii.eqb c sep then EmptyString :: split_on sep s'
      else match split_on sep s' with
           | f :: fs => String c f :: fs
           | [] => [String c EmptyString]
           end
  end.

Fixpoint lstrip (s : string) : string :=
  match s with
  | EmptyString => EmptyString
  | String c s' => if isspace c then lstrip s' else s
  end.

Fixpoint rstrip (s : string) : string :=
  match s with
  | EmptyString => EmptyString
  | String c s' =>
      let r := rstrip s' in
      if isspace c && negb (nonempty r) then EmptyString else String c r
  end.

(** [s.strip()]. *)
Definition strip (s : string) : string := rstrip (lstrip s).

(** [x in xs] for a list of strings. *)
Definition mem (x : string) (xs : list string) : bool :=
  existsb (String.eqb x) xs.

End Py.

(** ** The frequency table *)

(** [word_frequency]: word to count, in insertion order. *)
Definition table := list (string * nat).

(** [d[k]] of a [defaultdict(int)] read without inserting: 0 when absent. *)
Fixpoint get (d : table) (k : string) : nat :=
  match d with
  | [] => 0
  | (k', n) :: d' => if String.eqb k k' then n else get d' k
  end.

(** [d[k] += 1] on a [defaultdict(int)]: an absent key is first created
    with 0 at the end of the insertion order, a present key keeps its
    place. *)
Fixpoint incr (k : string) (d : table) : table :=
  match d with
  | [] => [(k, 1)]
  | (k', n) :: d' =>
      if String.eqb k k' then (k', S n) :: d' else (k', n) :: incr k d'
  end.

Definition keys {V : Type} (d : list (string * V)) : list string :=
  map fst d.

(** The test of line 75, [word.isalpha() and word.isascii()]. *)
Definition is_word (w : string) : bool := Py.isalpha w && Py.isascii w.

(** Lines 73-76 of [collect_words_from_text], on the table. *)
Definition collect_words (text : string) (d : table) : table :=
  fold_left (fun d w => if is_word w then incr (Py.lower w) d else d)
            (Py.split text) d.

(** ** External capabilities

    The crawler consumes three library functions: [urllib.parse.urlparse],
    [urllib.parse.urljoin] and the anchor search of BeautifulSoup.  They are
    taken as an interface; every general theorem below holds for each
    implementation of it.  [urlparse] and [urljoin] raise [ValueError] on
    some inputs (a host with one bracket and not the other): the interface
    says on which, and gives their results on the others.  The anchor
    search is taken to return on every text: [html.parser] is lenient, and
    the markup it refuses (a malformed marked section, reported as
    [ParserRejectedMarkup]) is outside the model. *)

(** The fields of [urlparse]'s result that the crawler reads. *)
Record ParseResult := mkParse {
  scheme : string;
  netloc : string;
  path : string
}.

Class Capabilities := {
  (** [urlparse(url)], where it returns *)
  urlparse : string -> ParseResult;
  (** [urljoin(base, url)], where it returns *)
  urljoin : string -> string -> string;
  (** [[link['href'] for link in BeautifulSoup(text, 'html.parser')
        .find_all('a', href=True)]] *)
  find_all_href : string -> list string;
  (** [urlparse(url)] raises [ValueError] *)
  urlparse_raises : string -> bool;
  (** [urljoin(base, url)] raises [ValueError] *)
  urljoin_raises : string -> string -> bool
}.

(** The outcome of [requests.get(url)] followed by [raise_for_status()]:
    the body of the response, or a [RequestException]. *)
Inductive response :=
| Body (text : string)
| RequestException.

(** The web as the crawler sees it: the outcome of its [n]-th request, which
    may differ from one request of a URL to the next. *)
Definition Web := nat -> string -> response.

Inductive exn := IndexError | AttributeError | ValueError.

Inductive result (A : Type) :=
| Ok (a : A)
| Raise (e : exn).
Arguments Ok {A} a.
Arguments Raise {A} e.

(** ** The crawl state: the attributes of [EnglishWordsParser] *)

Record EnglishWordsParser := mkParser {
  base_url : string;
  to_parse_links : list string;
  parsed_links : list string;
  output_file : string;
  word_frequency : table;
  (** unset until the loop's first iteration *)
  current_link : option string
}.

Definition set_to_parse_links (l : list string) (self : EnglishWordsParser) :=
  mkParser (base_url self) l (parsed_links self) (output_file self)
           (word_frequency self) (current_link self).

Definition set_parsed_links (l : list string) (self : EnglishWordsParser) :=
  mkParser (base_url self) (to_parse_links self) l (output_file self)
           (word_frequency self) (current_link self).

Definition set_word_frequency (d : table) (self : EnglishWordsParser) :=
  mkParser (base_url self) (to_parse_links self) (parsed_links self)
           (output_file self) d (current_link self).

Definition set_current_link (u : string) (self : EnglishWordsParser) :=
  mkParser (base_url self) (to_parse_links self) (parsed_links self)
           (output_file self) (word_frequency self) (Some u).

Section Crawler.
Context {caps : Capabilities}.

(** Lines 34-45, where [urlparse] returns. *)
Definition extract_base_url (url : string) : string :=
  let parsed_url := urlparse url in
  (scheme parsed_url ++ "://" ++ netloc parsed_url)%string.

(** Lines 20-32; [initial_links[0]] raises [IndexError] on an empty list,
    and [extract_base_url] lets the [ValueError] of [urlparse] through. *)
Definition init (initial_links : list string) (output : string)
  : result EnglishWordsParser :=
  match initial_links with
  | [] => Raise IndexError
  | first :: _ =>
      if urlparse_raises first then Raise ValueError
      else Ok (mkParser (extract_base_url first) initial_links [] output
                        [] None)
  end.

(** Lines 47-63, given what [requests.get] answers. *)
Definition fetch_page_content (get : string -> response) (url : string)
  : string :=
  match get url with
  | Body text => text
  | RequestException => EmptyString
  end.

(** Lines 65-76, on the [defaultdict] that the constructor creates and
    the crawl keeps.  (After [save_to_file] the table is a plain [dict],
    on which line 76 raises [KeyError] at a new word; the statements
    about this method are on the states of a crawl.) *)
Definition collect_words_from_text (text : string)
  (self : EnglishWordsParser) : EnglishWordsParser :=
  set_word_frequency (collect_words text (word_frequency self)) self.

(** The condition of lines 100-102. *)
Definition admissible (url : string) (self : EnglishWordsParser) : bool :=
  let parsed_url := urlparse url in
  (negb (Py.nonempty (path parsed_url))
   || negb (Py.contains "."%char (path parsed_url)))
  && negb (Py.mem url (to_parse_links self))
  && negb (Py.mem url (parsed_links self))
  && String.eqb (netloc parsed_url) (netloc (urlparse (base_url self))).

(** Lines 91-103.  The links it is given by the link discoverer are
    results of [urljoin], which [urlparse] reads without raising. *)
Definition parse_url (url : string) (self : EnglishWordsParser)
  : EnglishWordsParser :=
  if admissible url self
  then set_to_parse_links (to_parse_links self ++ [url]) self
  else self.

(** The loop of lines 87-89 over the anchors found.  Each turn reads
    [self.current_link], which raises [AttributeError] before the crawl
    loop has set it, and calls [urljoin], whose [ValueError] nothing
    catches: the links of the earlier anchors stay queued, those of the
    later ones are not read. *)
Fixpoint add_links (hrefs : list string) (self : EnglishWordsParser)
  : result EnglishWordsParser :=
  match hrefs with
  | [] => Ok self
  | href :: hrefs' =>
      match current_link self with
      | None => Raise AttributeError
      | Some cur =>
          if urljoin_raises cur href then Raise ValueError
          else add_links hrefs' (parse_url (urljoin cur href) self)
      end
  end.

(** Lines 78-89. *)
Definition find_links_and_add_to_parse (text : string)
  (self : EnglishWordsParser) : result EnglishWordsParser :=
  add_links (find_all_href text) self.

(** One iteration of the loop of [parse_all_links], lines 116-123;
    [pop(0)] raises [IndexError] on an empty list, and an exception of
    the link discoverer leaves the loop before line 122. *)
Definition loop_body (get : string -> response) (self : EnglishWordsParser)
  : result EnglishWordsParser :=
  match to_parse_links self with
  | [] => Raise IndexError
  | link :: rest =>
      let self1 := set_current_link link (set_to_parse_links rest self) in
      let page_content := fetch_page_content get link in
      if Py.nonempty page_content then
        let self2 := collect_words_from_text page_content self1 in
        match find_links_and_add_to_parse page_content self2 with
        | Raise e => Raise e
        | Ok self3 =>
            Ok (set_parsed_links (parsed_links self3 ++ [link]) self3)
        end
      else Ok self1
  end.

(** Lines 111-123.  The loop need not end, so it runs on [fuel]: [None]
    means the fuel ran out with links still to parse.  [n] counts the
    requests made so far. *)
Fixpoint parse_all_links (web : Web) (fuel n : nat)
  (self : EnglishWordsParser) : option (result EnglishWordsParser) :=
  match to_parse_links self with
  | [] => Some (Ok self)
  | _ :: _ =>
      match fuel with
      | 0 => None
      | S fuel' =>
          match loop_body (web n) self with
          | Raise e => Some (Raise e)
          | Ok self' => parse_all_links web fuel' (S n) self'
          end
      end
  end.

End Crawler.

(** ** Finalization and persistence *)

(** [x] goes in front of the first entry whose count is not above its own. *)
Fixpoint insert_desc (x : string * nat) (l : table) : table :=
  match l with
  | [] => [x]
  | y :: l' => if snd y <=? snd x then x :: l else y :: insert_desc x l'
  end.

(** [sorted(items, key=lambda item: item[1], reverse=True)]: Python's sort
    is stable, also under [reverse=True]; modelled by the insertion sort
    that puts each entry in front of the later entries of equal count. *)
Definition sorted_by_count_desc (items : table) : table :=
  fold_right insert_desc [] items.

(** [d[k] = v] on a plain [dict]. *)
Fixpoint dict_set {V : Type} (k : string) (v : V) (d : list (string * V))
  : list (string * V) :=
  match d with
  | [] => [(k, v)]
  | (k', v') :: d' =>
      if String.eqb k k' then (k', v) :: d' else (k', v') :: dict_set k v d'
  end.

(** [dict(items)]. *)
Definition dict_of_items (items : table) : table :=
  fold_left (fun d kv => dict_set (fst kv) (snd kv) d) items [].

(** Lines 105-109.  In the code the result is a plain [dict], on which a
    later [collect_words_from_text] would raise [KeyError] at a new word;
    the crawler sorts only in [save_to_file], after the crawl. *)
Definition sort_word_frequency (self : EnglishWordsParser)
  : EnglishWordsParser :=
  set_word_frequency
    (dict_of_items (sorted_by_count_desc (word_frequency self))) self.

Definition LF : ascii := "010"%char.
Definition CR : ascii := "013"%char.

(** [f"{frequency}"] for a count.  (The interpreter refuses conversions
    between [int] and [str] beyond 4300 digits; a count gets there only
    after that many powers of ten of increments, and the limit is left
    out, here and in [int_of_str].) *)
Definition str_of_nat (n : nat) : string :=
  NilEmpty.string_of_uint (Nat.to_uint n).

(** The record of line 132, [f"{word}:{frequency}\n"]. *)
Definition record (kv : string * nat) : string :=
  (fst kv ++ ":" ++ str_of_nat (snd kv) ++ String LF EmptyString)%string.

Definition write_records (d : table) : string :=
  String.concat EmptyString (map record d).

(** Lines 125-132: the state after the sort, and the text written to
    [output_file]. *)
Definition save_to_file (self : EnglishWordsParser)
  : EnglishWordsParser * string :=
  let self' := sort_word_frequency self in
  (self', write_records (word_frequency self')).

(** ** Reading the records back: [PartOfSpeechAnalyzer.process_file] *)

(** A file opened in text mode reads CR LF and CR as LF. *)
Fixpoint universal_newlines (s : string) : string :=
  match s with
  | EmptyString => EmptyString
  | String c s' =>
      if Ascii.eqb c CR then
        match s' with
        | String c' s'' =>
            if Ascii.eqb c' LF then String LF (universal_newlines s'')
            else String LF (universal_newlines s')
        | EmptyString => String LF EmptyString
        end
      else String c (universal_newlines s')
  end.

(** The lines of a text, each with its line feed; [cur] is the line being
    read. *)
Fixpoint lines_from (cur s : string) : list string :=
  match s with
  | EmptyString => if Py.nonempty cur then [cur] else []
  | String c s' =>
      if Ascii.eqb c LF
      then (cur ++ String LF EmptyString)%string :: lines_from EmptyString s'
      else lines_from (cur ++ String c EmptyString)%string s'
  end.

(** [for line in file]. *)
Definition file_lines (content : string) : list string :=
  lines_from EmptyString (universal_newlines content).

(** The white space [int] skips around a literal, among the code points
    below 256: TAB..CR, SPACE, NEL and NBSP. *)
Definition int_space (c : ascii) : bool :=
  Py.between 9 13 c || (Py.code c =? 32) || (Py.code c =? 133)
  || (Py.code c =? 160).

Fixpoint int_lstrip (s : string) : string :=
  match s with
  | EmptyString => EmptyString
  | String c s' => if int_space c then int_lstrip s' else s
  end.

Fixpoint int_rstrip (s : string) : string :=
  match s with
  | EmptyString => EmptyString
  | String c s' =>
      let r := int_rstrip s' in
      if int_space c && negb (Py.nonempty r) then EmptyString
      else String c r
  end.

(** The digits of a literal without its underscores; an underscore may
    only stand between two digits, and the literal may not be empty. *)
Fixpoint drop_underscores (after_digit : bool) (s : string)
  : option string :=
  match s with
  | EmptyString => if after_digit then Some EmptyString else None
  | String c s' =>
      if Ascii.eqb c "_"%char
      then (if after_digit then drop_underscores false s' else None)
      else option_map (String c) (drop_underscores true s')
  end.

(** An unsigned decimal literal: digits, with single underscores between
    them. *)
Definition decimal_of_str (s : string) : option nat :=
  match drop_underscores false s with
  | Some digits => option_map Nat.of_uint (NilEmpty.uint_of_string digits)
  | None => None
  end.

(** [int(s)]: white space around, one optional sign, then a decimal
    literal; [None] stands for [ValueError].  The interpreter's limit of
    4300 digits is left out. *)
Definition int_of_str (s : string) : option Z :=
  let literal := int_rstrip (int_lstrip s) in
  match literal with
  | EmptyString => None
  | String sign digits =>
      if Ascii.eqb sign "-"%char
      then option_map (fun n => (- Z.of_nat n)%Z) (decimal_of_str digits)
      else if Ascii.eqb sign "+"%char
      then option_map Z.of_nat (decimal_of_str digits)
      else option_map Z.of_nat (decimal_of_str literal)
  end.

(** [word_frequency_dict]: word to frequency, in insertion order. *)
Definition frequencies := list (string * Z).

(** Lines 36-37: [word, frequency = line.strip().split(':')] needs exactly
    two fields, [int(frequency)] a number; both raise [ValueError]. *)
Definition parse_line (line : string) : result (string * Z) :=
  match Py.split_on ":"%char (Py.strip line) with
  | [word; frequency] =>
      match int_of_str frequency with
      | Some f => Ok (word, f)
      | None => Raise ValueError
      end
  | _ => Raise ValueError
  end.

(** Lines 35-40 over the lines of the file; [word_tokenize] is nltk's. *)
Fixpoint process_lines (word_tokenize : string -> list string)
  (min_frequency : Z) (ls : list string) (d : frequencies)
  : result frequencies :=
  match ls with
  | [] => Ok d
  | line :: ls' =>
      match parse_line line with
      | Raise e => Raise e
      | Ok (word, frequency) =>
          process_lines word_tokenize min_frequency ls'
            (if (min_frequency <? frequency)%Z
             then dict_set (String.concat " " (word_tokenize word))
                           frequency d
             else d)
      end
  end.

(** Lines 30-40, from the text of the file to [word_frequency_dict]. *)
Definition process_file (word_tokenize : string -> list string)
  (min_frequency : Z) (content : string) : result frequencies :=
  process_lines word_tokenize min_frequency (file_lines content) [].




(** ** Notions used in the statements *)

(** A table of the crawler as a dictionary of the analyzer. *)
Definition frequencies_of (d : table) : frequencies :=
  map (fun kv => (fst kv, Z.of_nat (snd kv))) d.

Definition not_space (c : ascii) : bool := negb (Py.isspace c).

(** A text with its white space removed. *)
Fixpoint without_spaces (s : string) : string :=
  match s with
  | EmptyString => EmptyString
  | String c s' =>
      if Py.isspace c then without_spaces s'
      else String c (without_spaces s')
  end.

(** A key as the table holds them: not empty, lower-case ASCII letters
    only. *)
Definition lower_word (k : string) : bool :=
  Py.nonempty k && Py.all Py.ascii_lower k.

(** The step of the loop of [collect_words_from_text]. *)
Definition count_word (d : table) (w : string) : table :=
  if is_word w then incr (Py.lower w) d else d.

(** The tables the crawler can hold: the empty table of the constructor
    counted over any pages, in the order they were fetched. *)
Definition table_of_pages (pages : list string) : table :=
  fold_left (fun d text => collect_words text d) pages [].

Definition count_ge (a b : string * nat) : Prop := snd b <= snd a.

Definition has_count (c : nat) (kv : string * nat) : bool := snd kv =? c.



Definition not_cr (c : ascii) : bool := negb (Ascii.eqb c CR).

(** ** The states and runs of a crawl *)

Section Runs.
Context {caps : Capabilities}.

(** The tests of [parse_url], as propositions. *)
Definition page_like (url : string) : Prop :=
  path (urlparse url) = EmptyString
  \/ Py.contains "."%char (path (urlparse url)) = false.

Definition same_netloc (url base : string) : Prop :=
  netloc (urlparse url) = netloc (urlparse base).

Definition admitted (url : string) (self : EnglishWordsParser) : Prop :=
  page_like url
  /\ ~ In url (to_parse_links self)
  /\ ~ In url (parsed_links self)
  /\ same_netloc url (base_url self).

(** The loop of [find_links_and_add_to_parse] over the resolved links. *)
Definition admit_links (cur : string) (hrefs : list string)
  (self : EnglishWordsParser) : EnglishWordsParser :=
  fold_left (fun self' href => parse_url (urljoin cur href) self') hrefs self.

(** No anchor of the list makes [urljoin] raise against [cur]. *)
Definition joinable (cur : string) (hrefs : list string) : bool :=
  forallb (fun href => negb (urljoin_raises cur href)) hrefs.

(** The state after line 116: the head of the queue is removed and becomes
    the current link. *)
Definition popped (link : string) (rest : list string)
  (self : EnglishWordsParser) : EnglishWordsParser :=
  set_current_link link (set_to_parse_links rest self).

(** The state after a page was processed, lines 120-122. *)
Definition processed (link text : string) (rest : list string)
  (self : EnglishWordsParser) : EnglishWordsParser :=
  let found :=
    admit_links link (find_all_href text)
      (collect_words_from_text text (popped link rest self)) in
  set_parsed_links (parsed_links found ++ [link]) found.

(** The states a crawl started by [EnglishWordsParser(initial_links, output)]
    passes through, one constructor for each place where the program
    changes the state: the constructor, [pop(0)] with the assignment of
    [current_link] (line 116), the word count (line 120), each call of
    [parse_url] (line 89) and the record of a parsed link (line 122). *)
Inductive reachable (initial_links : list string) (output : string)
  : EnglishWordsParser -> Prop :=
| reach_init self :
    init initial_links output = Ok self ->
    reachable initial_links output self
| reach_pop self link rest :
    reachable initial_links output self ->
    to_parse_links self = link :: rest ->
    reachable initial_links output
      (set_current_link link (set_to_parse_links rest self))
| reach_words self text :
    reachable initial_links output self ->
    reachable initial_links output (collect_words_from_text text self)
| reach_admit self url :
    reachable initial_links output self ->
    reachable initial_links output (parse_url url self)
| reach_parsed self link :
    reachable initial_links output self ->
    current_link self = Some link ->
    reachable initial_links output
      (set_parsed_links (parsed_links self ++ [link]) self).

(** [crawl web n self trace self']: from [self], with [n] requests made
    before, the loop runs some iterations and reaches [self']; [trace]
    lists the links it dequeued, in order. *)
Inductive crawl (web : Web)
  : nat -> EnglishWordsParser -> list string -> EnglishWordsParser -> Prop :=
| crawl_stop n self : crawl web n self [] self
| crawl_step n self link rest self1 trace self2 :
    to_parse_links self = link :: rest ->
    loop_body (web n) self = Ok self1 ->
    crawl web (S n) self1 trace self2 ->
    crawl web n self (link :: trace) self2.

End Runs.

(** ** A model of the capabilities, for the examples

    [Model.urlparse] and [Model.urljoin] follow [urllib.parse] of
    CPython 3.11 on strings of code points below 256: [urlsplit] (leading
    control characters and spaces stripped, TAB, CR and LF removed, the
    scheme, the netloc after [//], the fragment, the query), the [;]
    parameters of [urlparse], [urlunparse], and the resolution of a
    reference against a base of [urljoin].  Of the checks of the host,
    the model has the one that raises [ValueError] when the netloc has
    one bracket and not the other; the validation of the address between
    two brackets, which only the later interpreters have, is left out,
    and the examples use no bracketed host.  (The check under NFKC
    normalization raises on no code point below 256.)
    [Model.find_all_href] reads anchors written [<a href='...'>]. *)

Module Model.

Fixpoint break (stop : ascii -> bool) (s : string) : string * string :=
  match s with
  | EmptyString => (EmptyString, EmptyString)
  | String c s' =>
      if stop c then (EmptyString, s)
      else let (a, b) := break stop s' in (String c a, b)
  end.

(** [a, b = s.split(sep, 1)], with [b] empty when [sep] is not in [s]. *)
Definition cut (sep : ascii) (s : string) : string * string :=
  let (a, b) := break (Ascii.eqb sep) s in
  (a, match b with EmptyString => EmptyString | String _ b' => b' end).

Definition digit (c : ascii) : bool := Py.between 48 57 c.

Definition scheme_char (c : ascii) : bool :=
  Py.ascii_letter c || digit c || Py.contains c "+-.".

(** [url.lstrip(_WHATWG_C0_CONTROL_OR_SPACE)] *)
Fixpoint lstrip_c0 (url : string) : string :=
  match url with
  | EmptyString => EmptyString
  | String c url' => if Py.code c <=? 32 then lstrip_c0 url' else url
  end.

(** The removal of [_UNSAFE_URL_BYTES_TO_REMOVE]: TAB, CR and LF. *)
Fixpoint remove_unsafe (url : string) : string :=
  match url with
  | EmptyString => EmptyString
  | String c url' =>
      if (Py.code c =? 9) || (Py.code c =? 10) || (Py.code c =? 13)
      then remove_unsafe url' else String c (remove_unsafe url')
  end.

(** The scheme found ([EmptyString] when there is none) and the rest. *)
Definition split_scheme (url : string) : string * string :=
  let (pre, rest) := break (Ascii.eqb ":"%char) url in
  match pre, rest with
  | String c0 _, String _ after =>
      if Py.ascii_letter c0 && Py.all scheme_char pre
      then (Py.lower pre, after) else (EmptyString, url)
  | _, _ => (EmptyString, url)
  end.

Fixpoint strip_prefix (p s : string) : option string :=
  match p, s with
  | EmptyString, _ => Some s
  | String a p', String b s' =>
      if Ascii.eqb a b then strip_prefix p' s' else None
  | String _ _, EmptyString => None
  end.

Definition starts_with (p s : string) : bool :=
  match strip_prefix p s with Some _ => true | None => false end.

(** [_splitnetloc(url, 2)] when [url[:2] == '//']. *)
Definition split_netloc (url : string) : string * string :=
  match strip_prefix "//" url with
  | Some r => break (fun c => Py.contains c "/?#") r
  | None => (EmptyString, url)
  end.

(** The six components of [urlparse]. *)
Record Parsed := mkParsed {
  p_scheme : string; p_netloc : string; p_path : string;
  p_params : string; p_query : string; p_fragment : string }.

(** The text through the last [/] of [url], and the text after it. *)
Fixpoint at_last_slash (url : string) : string * string :=
  match url with
  | EmptyString => (EmptyString, EmptyString)
  | String c url' =>
      let (h, t) := at_last_slash url' in
      if Py.nonempty h then (String c h, t)
      else if Ascii.eqb c "/"%char then (String c EmptyString, t)
      else (EmptyString, String c t)
  end.

(** [_splitparams(url)]: the parameters follow the first [;] of the last
    segment of the path. *)
Definition splitparams (url : string) : string * string :=
  let (h, t) := at_last_slash url in
  let (a, b) := cut ";"%char t in
  ((h ++ a)%string, b).

Definition uses_relative : list string :=
  [""; "ftp"; "http"; "gopher"; "nntp"; "imap"; "wais"; "file"; "https";
   "shttp"; "mms"; "prospero"; "rtsp"; "rtspu"; "sftp"; "svn"; "svn+ssh";
   "ws"; "wss"].

Definition uses_netloc : list string :=
  [""; "ftp"; "http"; "gopher"; "nntp"; "telnet"; "imap"; "wais"; "file";
   "mms"; "https"; "shttp"; "snews"; "prospero"; "rtsp"; "rtspu"; "rsync";
   "svn"; "svn+ssh"; "sftp"; "nfs"; "git"; "git+ssh"; "ws"; "wss"].

Definition uses_params : list string :=
  [""; "ftp"; "hdl"; "prospero"; "http"; "imap"; "https"; "shttp"; "rtsp";
   "rtspu"; "sip"; "sips"; "mms"; "sftp"; "tel"].

(** The text [urlsplit] works on, and the pieces it cuts it into. *)
Definition cleaned (url : string) : string := remove_unsafe (lstrip_c0 url).

(** [urlparse(url, default_scheme)], where it returns. *)
Definition parse (url default_scheme : string) : Parsed :=
  let (sch, url1) := split_scheme (cleaned url) in
  let (net, url2) := split_netloc url1 in
  let (url3, fragment) := cut "#"%char url2 in
  let (url4, query) := cut "?"%char url3 in
  let sch' := if Py.nonempty sch then sch else default_scheme in
  let (p, params) :=
    if Py.mem sch' uses_params && Py.contains ";"%char url4
    then splitparams url4 else (url4, EmptyString) in
  mkParsed sch' net p params query fragment.

Definition urlparse (url : string) : ParseResult :=
  let r := parse url EmptyString in
  mkParse (p_scheme r) (p_netloc r) (p_path r).

(** [urlsplit] raises "Invalid IPv6 URL": one bracket in the netloc and
    not the other. *)
Definition urlparse_raises (url : string) : bool :=
  let net := fst (split_netloc (snd (split_scheme (cleaned url)))) in
  xorb (Py.contains "["%char net) (Py.contains "]"%char net).

(** [urlunparse(components)], through [urlunsplit]. *)
Definition urlunparse (r : Parsed) : string :=
  let url :=
    if Py.nonempty (p_params r)
    then (p_path r ++ ";" ++ p_params r)%string else p_path r in
  let url1 :=
    if Py.nonempty (p_netloc r)
       || (Py.nonempty (p_scheme r) && Py.mem (p_scheme r) uses_netloc
           && negb (starts_with "//" url))
    then ("//" ++ p_netloc r
          ++ (if Py.nonempty url && negb (starts_with "/" url)
              then "/" ++ url else url))%string
    else url in
  let url2 :=
    if Py.nonempty (p_scheme r) then (p_scheme r ++ ":" ++ url1)%string
    else url1 in
  let url3 :=
    if Py.nonempty (p_query r) then (url2 ++ "?" ++ p_query r)%string
    else url2 in
  if Py.nonempty (p_fragment r) then (url3 ++ "#" ++ p_fragment r)%string
  else url3.

(** [base_parts]: the segments of the base path without the last one,
    unless that one is empty. *)
Definition base_parts (bpath : string) : list string :=
  let parts := Py.split_on "/"%char bpath in
  if Py.nonempty (last parts EmptyString) then removelast parts else parts.

(** [segments[1:-1] = filter(None, segments[1:-1])] *)
Definition squeeze (segments : list string) : list string :=
  match segments with
  | first :: (_ :: _) as rest =>
      first :: filter Py.nonempty (removelast rest)
      ++ [last rest EmptyString]
  | _ => segments
  end.

(** The loop over the segments: [..] pops, on an empty list too, and [.]
    is skipped. *)
Definition resolve (segments : list string) : list string :=
  fold_left
    (fun resolved_path seg =>
       if String.eqb seg ".." then removelast resolved_path
       else if String.eqb seg "." then resolved_path
       else resolved_path ++ [seg])
    segments [].

Definition urljoin (base url : string) : string :=
  if negb (Py.nonempty base) then url
  else if negb (Py.nonempty url) then base
  else
    let b := parse base EmptyString in
    let r := parse url (p_scheme b) in
    if negb (String.eqb (p_scheme r) (p_scheme b))
       || negb (Py.mem (p_scheme r) uses_relative)
    then url
    else if Py.mem (p_scheme r) uses_netloc && Py.nonempty (p_netloc r)
    then urlunparse r
    else
      let netloc :=
        if Py.mem (p_scheme r) uses_netloc then p_netloc b
        else p_netloc r in
      if negb (Py.nonempty (p_path r)) && negb (Py.nonempty (p_params r))
      then
        urlunparse
          (mkParsed (p_scheme r) netloc (p_path b) (p_params b)
             (if Py.nonempty (p_query r) then p_query r else p_query b)
             (p_fragment r))
      else
        let segments :=
          if starts_with "/" (p_path r)
          then Py.split_on "/"%char (p_path r)
          else squeeze (base_parts (p_path b)
                        ++ Py.split_on "/"%char (p_path r)) in
        let resolved_path :=
          resolve segments
          ++ (if Py.mem (last segments EmptyString) ["."; ".."]
              then [EmptyString] else []) in
        let joined := String.concat "/" resolved_path in
        urlunparse
          (mkParsed (p_scheme r) netloc
             (if Py.nonempty joined then joined else "/")
             (p_params r) (p_query r) (p_fragment r)).

(** [urljoin] parses both its arguments, unless one of them is empty. *)
Definition urljoin_raises (base url : string) : bool :=
  Py.nonempty base && Py.nonempty url
  && (urlparse_raises base || urlparse_raises url).

Fixpoint find_all_href (text : string) : list string :=
  match strip_prefix "<a href='" text with
  | Some after =>
      fst (break (Ascii.eqb "'"%char) after)
      :: match text with
         | EmptyString => []
         | String _ text' => find_all_href text'
         end
  | None =>
      match text with
      | EmptyString => []
      | String _ text' => find_all_href text'
      end
  end.

#[global] Instance caps : Capabilities :=
  Build_Capabilities urlparse urljoin find_all_href
                     urlparse_raises urljoin_raises.

End Model.

(** ** The other steps of [PartOfSpeechAnalyzer]

    The analyzer keeps one dictionary, [word_frequency_dict]; each method
    is modelled as the function from the dictionary before to the
    dictionary after.  nltk's tokenizer, lemmatizer, tagger, WordNet and
    stop-word list are parameters. *)

Module Analyzer.

(** [d[k]] on a plain [dict]: [None] stands for [KeyError]. *)
Fixpoint getitem (d : table) (k : string) : option nat :=
  match d with
  | [] => None
  | (k', v) :: d' => if String.eqb k k' then Some v else getitem d' k
  end.

(** Lines 42-46: [{lemmatize(word): freq for word, freq in d.items()}]. *)
Definition lemmatize_words (lemmatize : string -> string) (d : table)
  : table :=
  dict_of_items (map (fun kv => (lemmatize (fst kv), snd kv)) d).

(** Lines 48-59: [len(wordnet.synsets(word)) > 0]. *)
Definition is_valid_english_word {Synset : Type}
  (synsets : string -> list Synset) (word : string) : bool :=
  0 <? List.length (synsets word).

(** Lines 61-66. *)
Definition filter_stop_words (stop_words : list string) (d : table)
  : table :=
  dict_of_items
    (filter (fun kv => negb (Py.mem (Py.lower (fst kv)) stop_words)) d).

(** The test of line 72. *)
Definition valid_entry {Synset : Type} (synsets : string -> list Synset)
  (kv : string * nat) : bool :=
  (1 <? String.length (fst kv)) && is_valid_english_word synsets (fst kv).

(** Lines 68-72. *)
Definition filter_valid_english_words {Synset : Type}
  (synsets : string -> list Synset) (d : table) : table :=
  dict_of_items (filter (valid_entry synsets) d).

(** The test of lines 81-86: the word is tokenized, its tokens are
    lemmatized and tagged, and some tag must be an allowed one. *)
Definition allowed_entry (word_tokenize : string -> list string)
  (lemmatize : string -> string)
  (pos_tag : list string -> list (string * string))
  (allowed_parts_of_speech : list string) (kv : string * nat) : bool :=
  let words := word_tokenize (fst kv) in
  let lemmatized_words := map lemmatize words in
  let pos_tags := pos_tag lemmatized_words in
  existsb (fun tag => Py.mem (snd tag) allowed_parts_of_speech) pos_tags.

(** Lines 74-89. *)
Definition filter_by_part_of_speech (word_tokenize : string -> list string)
  (lemmatize : string -> string)
  (pos_tag : list string -> list (string * string))
  (allowed_parts_of_speech : list string) (d : table) : table :=
  fold_left
    (fun filtered_words kv =>
       if allowed_entry word_tokenize lemmatize pos_tag
            allowed_parts_of_speech kv
       then dict_set (fst kv) (snd kv) filtered_words
       else filtered_words)
    d [].

(** Line 96: [{k: sorted_dict[k] for k in sorted_dict if k}], over the
    keys [ks] of [sorted_dict]; an empty string is false. *)
Fixpoint keep_named (ks : list string) (sorted_dict acc : table)
  : option table :=
  match ks with
  | [] => Some acc
  | k :: ks' =>
      if Py.nonempty k then
        match getitem sorted_dict k with
        | Some v => keep_named ks' sorted_dict (dict_set k v acc)
        | None => None
        end
      else keep_named ks' sorted_dict acc
  end.

(** Lines 91-96. *)
Definition sort_and_remove_duplicates (d : table) : option table :=
  let sorted_dict := dict_of_items (sorted_by_count_desc d) in
  keep_named (keys sorted_dict) sorted_dict [].

(** Lines 98-108: the dictionary after the sort, and the text written. *)
Definition save_to_file (d : table) : option (table * string) :=
  match sort_and_remove_duplicates d with
  | Some d' => Some (d', write_records d')
  | None => None
  end.

(** The counts of the dictionary read as natural numbers: those
    [process_file] keeps are above a threshold that is not negative. *)
Definition counts_of (d : frequencies) : table :=
  map (fun kv => (fst kv, Z.to_nat (snd kv))) d.

(** The script of lines 110-122: read the file, keep the valid words,
    lemmatize, keep the allowed parts of speech, save.  [None] stands for
    an exception.  The threshold is a natural number, as the script's
    1000 is. *)
Definition run {Synset : Type} (word_tokenize : string -> list string)
  (lemmatize : string -> string)
  (pos_tag : list string -> list (string * string))
  (synsets : string -> list Synset)
  (min_frequency : nat) (allowed_parts_of_speech : list string)
  (content : string) : option (table * string) :=
  match process_file word_tokenize (Z.of_nat min_frequency) content with
  | Raise _ => None
  | Ok d =>
      save_to_file
        (filter_by_part_of_speech word_tokenize lemmatize pos_tag
           allowed_parts_of_speech
           (lemmatize_words lemmatize
              (filter_valid_english_words synsets (counts_of d))))
  end.

End Analyzer.

(** ** The line sorter, [sort.py] *)

(** [x] goes in front of the first line that is not below it. *)
Fixpoint insert_line (x : string) (l : list string) : list string :=
  match l with
  | [] => [x]
  | y :: l' => if String.leb x y then x :: l else y :: insert_line x l'
  end.

(** [sorted(lines)]: strings compare by code points, a proper prefix
    first; equal strings are the same string, so the stable sort is
    modelled by the insertion sort. *)
Definition sorted_lines (lines : list string) : list string :=
  fold_right insert_line [] lines.

(** The files by name; [None]: no such file. *)
Definition FileSystem := string -> option string.

Definition write_file (fs : FileSystem) (name content : string)
  : FileSystem :=
  fun name' => if String.eqb name' name then Some content else fs name'.

(** Lines 1-16.  A missing input file raises inside the [try]; the
    handler prints a message, and nothing was written.  The messages are
    left out. *)
Definition sort_and_save (fs : FileSystem)
  (input_filename output_filename : string) : FileSystem :=
  match fs input_filename with
  | None => fs
  | Some content =>
      let lines := file_lines content in
      let sorted := sorted_lines lines in
      write_file fs output_filename (String.concat EmptyString sorted)
  end.

(** ** Further notions used in the statements *)

(** The assignments [d[k] = v] of a list of items, in order. *)
Definition dict_fill (items d : table) : table :=
  fold_left (fun d kv => dict_set (fst kv) (snd kv) d) items d.

(** A character that [urlsplit] does not remove: not TAB, LF or CR. *)
Definition safe_char (c : ascii) : bool :=
  negb ((Py.code c =? 9) || (Py.code c =? 10) || (Py.code c =? 13)).

(** An entry whose word is not the empty string. *)
Definition named (kv : string * nat) : bool := Py.nonempty (fst kv).

(** A character that is no line end. *)
Definition plain (c : ascii) : bool :=
  negb (Ascii.eqb c LF) && negb (Ascii.eqb c CR).

(** The order of [sorted] on lines. *)
Definition line_le (a b : string) : Prop := String.leb a b = true.

(** The number of occurrences of a character in a text. *)
Fixpoint count_char (c : ascii) (s : string) : nat :=
  match s with
  | EmptyString => 0
  | String c' s' => (if Ascii.eqb c' c then 1 else 0) + count_char c s'
  end.


(** The links of a dequeued [trace] whose fetch gave a body that is not
    empty, the first of them being the [n]-th request. *)
Fixpoint fetched (web : Web) (n : nat) (trace : list string) : list string :=
  match trace with
  | [] => []
  | link :: trace' =>
      if Py.nonempty (fetch_page_content (web n) link)
      then link :: fetched web (S n) trace'
      else fetched web (S n) trace'
  end.

(** The bodies of those fetches. *)
Fixpoint fetched_pages (web : Web) (n : nat) (trace : list string)
  : list string :=
  match trace with
  | [] => []
  | link :: trace' =>
      if Py.nonempty (fetch_page_content (web n) link)
      then fetch_page_content (web n) link :: fetched_pages web (S n) trace'
      else fetched_pages web (S n) trace'
  end.

(** The last character of a text is a line end, or the text is empty. *)
Fixpoint ends_with_newline (s : string) : bool :=
  match s with
  | EmptyString => true
  | String c EmptyString => Ascii.eqb c LF || Ascii.eqb c CR
  | String _ s' => ends_with_newline s'
  end.

(** A line as [file_lines] gives them when the text ends with a line
    end: characters other than line ends, then one line feed. *)
Fixpoint whole_line (l : string) : bool :=
  match l with
  | EmptyString => false
  | String c EmptyString => Ascii.eqb c LF
  | String c l' =>
      negb (Ascii.eqb c LF) && negb (Ascii.eqb c CR) && whole_line l'
  end.

(** ** The data of the examples *)

Definition example_parser (d : table) : EnglishWordsParser :=
  mkParser "https://example.com" [] [] "words.txt" d None.

Definition seed : string := "https://example.com".
Definition about : string := "https://example.com/about".
Definition words_file : string := "words.txt".

(** The crawler built from the single seed. *)
Definition crawler : EnglishWordsParser :=
  mkParser "https://example.com" [seed] [] words_file [] None.

(** A page linking to a page of the site, to another site and to an
    image. *)
Definition links_page : string :=
  "See <a href='https://example.com/about'>about</a>
   <a href='https://external.com/x'>elsewhere</a>
   <a href='https://example.com/image.png'>logo</a>".

(** The seed's page of the scenario of the specification: no links. *)
Definition cat_page : string := "The Cat sat on the Mat".

Definition broken_page : string :=
  "Read <a href='/docs'>the docs</a> or <a href='http://['>this</a>".
Definition broken_web : Web := fun _ _ => Body broken_page.

(** A text with a word already counted, a token with a comma and a
    number. *)
Definition mixed_text : string := "See the Cat, a cat 42 CAT".

(** A stand-in for nltk's tokenizer that splits one contraction, as the
    Treebank rules do. *)
Definition contraction_tokenizer (w : string) : list string :=
  if String.eqb w "cannot" then ["can"; "not"] else [w].

(** A web where every request fails. *)
Definition dead_web : Web := fun _ _ => RequestException.

(** A file of two lines, each ended by a line feed, and the same two
    lines with the last one not ended. *)
Definition two_lines : string :=
  ("pear:1" ++ String LF ("apple:3" ++ String LF EmptyString))%string.
Definition two_lines_open : string :=
  ("pear:1" ++ String LF "apple:3")%string.

(** Records whose counts are written as [int] also reads them: with a
    space, a sign, an underscore. *)
Definition signed_counts : string :=
  ("the: 12" ++ String LF ("cat:+3" ++ String LF ("dog:-5" ++ String LF
   ("sat:1_000" ++ String LF ("mat:3" ++ String LF EmptyString)))))%string.

(** A word file for the analyzer, one count written with a sign. *)
Definition analyzer_input : string :=
  ("the:5" ++ String LF ("cats:+3" ++ String LF ("a:9" ++ String LF
   ("on:2" ++ String LF EmptyString))))%string.

(** The files of the example: [output.txt] alone. *)
Definition example_files : FileSystem :=
  fun name => if String.eqb name "output.txt" then Some two_lines else None.

(** Stand-ins for nltk in the examples: a lemmatizer that only knows the
    plural [cats], a tagger that tags every word as a noun, a WordNet that
    knows every word. *)
Definition plural_lemma (w : string) : string :=
  if String.eqb w "cats" then "cat" else w.
Definition noun_tagger (ws : list string) : list (string * string) :=
  map (fun w => (w, "NN")) ws.
Definition any_synsets (w : string) : list unit := [tt].


(** A seed that is a file, and a home page that links to it. *)
Definition data_file : string := "https://example.com/data.json".
Definition data_page : string :=
  "Data <a href='https://example.com/data.json'>file</a>".
Definition data_web : Web :=
  fun _ url => if String.eqb url seed then Body data_page
               else RequestException.

(** A page that links to itself. *)
Definition home : string := "https://example.com/".
Definition home_page : string :=
  "Welcome <a href='https://example.com/'>home</a>".
Definition home_web : Web :=
  fun _ url => if String.eqb url home then Body home_page
               else RequestException.

(** Initial links that repeat a link of another site. *)
Definition mixed_seeds : list string :=
  [seed; "https://other.org"; "https://other.org"].

Definition site_seeds : list string := [seed; "https://example.com/docs"].

(** The state after the first iteration from [site_seeds], when the
    seed's page is [links_page]. *)
Definition after_links_page : EnglishWordsParser :=
  mkParser "https://example.com" ["https://example.com/docs"; about] [seed]
           words_file [("see", 1)] (Some seed).

(** The state after the seed's page [links_page] was processed. *)
Definition after_seed : EnglishWordsParser :=
  mkParser "https://example.com" [about] [seed] words_file
           [("see", 1)] (Some seed).

(** A two-page site: the seed links to [about], which has no links. *)
Definition two_page_web : Web :=
  fun _ url => if String.eqb url seed then Body links_page
               else Body cat_page.

(** The state at the end of the crawl of the two-page site. *)
Definition two_pages_done : EnglishWordsParser :=
  mkParser "https://example.com" [] [seed; about] words_file
           [("see", 1); ("the", 2); ("cat", 1); ("sat", 1); ("on", 1);
            ("mat", 1)]
           (Some about).

(** * Properties *)

(** ** Characters and strings *)

Ltac by_cases_on_char c :=
  destruct c as [[] [] [] [] [] [] [] []]; try reflexivity; try discriminate.

Lemma word_char_is_ascii_letter (c : ascii) :
  Py.char_isalpha c && Py.char_isascii c = Py.ascii_letter c.
Proof. by_cases_on_char c. Qed.

Lemma lower_of_letter (c : ascii) :
  Py.ascii_letter c = true -> Py.ascii_lower (Py.char_lower c) = true.
Proof. by_cases_on_char c. Qed.

Lemma all_and (p q : ascii -> bool) (s : string) :
  Py.all p s && Py.all q s = Py.all (fun c => p c && q c) s.
Proof.
  induction s as [|c s IH]; simpl; [reflexivity|].
  rewrite <- IH.
  destruct (p c), (q c), (Py.all p s), (Py.all q s); reflexivity.
Qed.

Lemma all_ext (p q : ascii -> bool) (s : string) :
  (forall c, p c = q c) -> Py.all p s = Py.all q s.
Proof.
  intros E; induction s as [|c s IH]; simpl; [reflexivity|].
  now rewrite E, IH.
Qed.

Lemma all_impl (p q : ascii -> bool) (s : string) :
  (forall c, p c = true -> q c = true) ->
  Py.all p s = true -> Py.all q s = true.
Proof.
  intros I; induction s as [|c s IH]; simpl; [reflexivity|].
  intros H; apply andb_true_iff in H as [Hc Hs].
  now rewrite (I c Hc), (IH Hs).
Qed.

Lemma all_app (p : ascii -> bool) (s t : string) :
  Py.all p (s ++ t)%string = Py.all p s && Py.all p t.
Proof.
  induction s as [|c s IH]; simpl; [reflexivity|].
  now rewrite IH, andb_assoc.
Qed.

Lemma is_word_letters (w : string) :
  Py.nonempty w = true -> is_word w = Py.all Py.ascii_letter w.
Proof.
  intros N; unfold is_word, Py.isalpha, Py.isascii.
  rewrite N; simpl.
  rewrite all_and; apply all_ext, word_char_is_ascii_letter.
Qed.

Lemma lower_word_chars (w : string) :
  Py.all Py.ascii_letter w = true ->
  Py.all Py.ascii_lower (Py.lower w) = true.
Proof.
  induction w as [|c w IH]; simpl; [reflexivity|].
  intros H; apply andb_true_iff in H as [Hc Hw].
  now rewrite (lower_of_letter c Hc), (IH Hw).
Qed.

Lemma lower_nonempty (w : string) :
  Py.nonempty (Py.lower w) = Py.nonempty w.
Proof. destruct w; reflexivity. Qed.

(** ** [str.split()] *)

Lemma split_from_tokens (s tok w : string) :
  Py.all not_space tok = true ->
  In w (Py.split_from tok s) ->
  Py.nonempty w = true /\ Py.all not_space w = true.
Proof.
  revert tok; induction s as [|c s IH]; simpl; intros tok T H.
  - destruct (Py.nonempty tok) eqn:N; simpl in H; [|contradiction].
    destruct H as [<-|[]]; auto.
  - destruct (Py.isspace c) eqn:W.
    + destruct (Py.nonempty tok) eqn:N.
      * destruct H as [<-|H]; [auto|]. now apply (IH EmptyString).
      * now apply (IH EmptyString).
    + apply (IH (tok ++ String c EmptyString)%string); [|assumption].
      rewrite all_app, T; simpl. unfold not_space; now rewrite W.
Qed.

Lemma append_assoc (a b c : string) :
  ((a ++ b) ++ c = a ++ (b ++ c))%string.
Proof. induction a as [|x a IH]; simpl; [reflexivity|now rewrite IH]. Qed.

Lemma append_nil_r (a : string) : (a ++ EmptyString)%string = a.
Proof. induction a as [|x a IH]; simpl; [reflexivity|now rewrite IH]. Qed.

Lemma concat_cons (r : string) (rs : list string) :
  String.concat EmptyString (r :: rs) =
  (r ++ String.concat EmptyString rs)%string.
Proof. destruct rs; simpl; [now rewrite append_nil_r|reflexivity]. Qed.

(** The tokens, put together, are the text without its white space. *)
Lemma split_from_covers (s tok : string) :
  String.concat EmptyString (Py.split_from tok s) =
  (tok ++ without_spaces s)%string.
Proof.
  revert tok; induction s as [|c s IH]; intros tok;
    cbn [Py.split_from without_spaces].
  - destruct tok; simpl; [reflexivity|now rewrite append_nil_r].
  - destruct (Py.isspace c).
    + destruct tok as [|c0 tok]; cbn [Py.nonempty].
      * now rewrite IH.
      * now rewrite concat_cons, IH.
    + now rewrite IH, append_assoc.
Qed.

Lemma split_covers_text (text : string) :
  String.concat EmptyString (Py.split text) = without_spaces text.
Proof. apply split_from_covers. Qed.

Lemma split_tokens (text w : string) :
  In w (Py.split text) ->
  Py.nonempty w = true /\ Py.all not_space w = true.
Proof. now apply split_from_tokens. Qed.

(** ** The word table *)

Lemma get_incr (k k' : string) (d : table) :
  get (incr k d) k' = get d k' + (if String.eqb k' k then 1 else 0).
Proof.
  induction d as [|[k0 n] d IH]; simpl.
  - destruct (String.eqb k' k); reflexivity.
  - destruct (String.eqb k k0) eqn:E; simpl.
    + apply String.eqb_eq in E; subst k0.
      destruct (String.eqb k' k); lia.
    + destruct (String.eqb k' k0) eqn:E'; [|exact IH].
      apply String.eqb_eq in E'; subst k0.
      rewrite String.eqb_sym, E; lia.
Qed.

Lemma keys_incr (k : string) (d : table) :
  keys (incr k d) = if Py.mem k (keys d) then keys d else keys d ++ [k].
Proof.
  induction d as [|[k0 n] d IH]; simpl; [reflexivity|].
  destruct (String.eqb k k0); simpl; [reflexivity|].
  unfold keys in *; rewrite IH.
  now destruct (Py.mem k (map fst d)).
Qed.

Lemma mem_In (x : string) (xs : list string) :
  Py.mem x xs = true <-> In x xs.
Proof.
  unfold Py.mem; rewrite existsb_exists; split.
  - intros (y & Hy & E); apply String.eqb_eq in E; now subst.
  - intros H; exists x; split; [assumption|apply String.eqb_refl].
Qed.

Lemma mem_not_In (x : string) (xs : list string) :
  Py.mem x xs = false <-> ~ In x xs.
Proof.
  rewrite <- mem_In; destruct (Py.mem x xs); split; congruence.
Qed.

Lemma NoDup_keys_incr (k : string) (d : table) :
  NoDup (keys d) -> NoDup (keys (incr k d)).
Proof.
  intros N; rewrite keys_incr.
  destruct (Py.mem k (keys d)) eqn:M; [assumption|].
  apply mem_not_In in M.
  apply NoDup_app; [assumption|repeat constructor; intros []|].
  intros x Hx [<-|[]]; contradiction.
Qed.

Lemma Forall_keys_incr (P : string -> Prop) (k : string) (d : table) :
  P k -> Forall P (keys d) -> Forall P (keys (incr k d)).
Proof.
  intros Pk F; rewrite keys_incr.
  destruct (Py.mem k (keys d)); [assumption|].
  apply Forall_app; split; [assumption|now constructor].
Qed.

Lemma get_count_words (ws : list string) (d : table) (k : string) :
  get (fold_left count_word ws d) k =
  get d k +
  List.length
    (filter (fun w => is_word w && String.eqb (Py.lower w) k) ws).
Proof.
  revert d; induction ws as [|w ws IH]; intros d; simpl; [lia|].
  rewrite IH; unfold count_word.
  destruct (is_word w); simpl; [|reflexivity].
  rewrite get_incr, (String.eqb_sym k).
  destruct (String.eqb (Py.lower w) k); simpl; lia.
Qed.

Lemma keys_count_words (ws : list string) (d : table) :
  (forall w, In w ws -> Py.nonempty w = true) ->
  Forall (fun k => lower_word k = true) (keys d) ->
  Forall (fun k => lower_word k = true) (keys (fold_left count_word ws d)).
Proof.
  revert d; induction ws as [|w ws IH]; intros d N F; simpl; [assumption|].
  apply IH; [intros w' H; apply N; now right|].
  unfold count_word; destruct (is_word w) eqn:W; [|assumption].
  apply Forall_keys_incr; [|assumption].
  assert (Nw : Py.nonempty w = true) by (apply N; now left).
  rewrite (is_word_letters w Nw) in W.
  unfold lower_word; now rewrite lower_nonempty, Nw, lower_word_chars.
Qed.

Lemma NoDup_keys_count_words (ws : list string) (d : table) :
  NoDup (keys d) -> NoDup (keys (fold_left count_word ws d)).
Proof.
  revert d; induction ws as [|w ws IH]; intros d N; simpl; [assumption|].
  apply IH; unfold count_word; destruct (is_word w); [|assumption].
  now apply NoDup_keys_incr.
Qed.

Lemma filter_ext_on {A} (f g : A -> bool) (l : list A) :
  (forall x, In x l -> f x = g x) -> filter f l = filter g l.
Proof.
  induction l as [|x l IH]; intros E; simpl; [reflexivity|].
  rewrite (E x) by now left.
  rewrite IH; [reflexivity|]. intros y Hy; apply E; now right.
Qed.

Lemma table_of_pages_snoc (pages : list string) (text : string) :
  table_of_pages (pages ++ [text]) =
  collect_words text (table_of_pages pages).
Proof. unfold table_of_pages; now rewrite fold_left_app. Qed.

Lemma table_of_pages_keys (pages : list string) :
  Forall (fun k => lower_word k = true) (keys (table_of_pages pages))
  /\ NoDup (keys (table_of_pages pages)).
Proof.
  induction pages as [|text pages IH] using rev_ind.
  - split; constructor.
  - rewrite table_of_pages_snoc; destruct IH as [F N]; split.
    + apply keys_count_words; [|assumption].
      intros w H; now apply (split_tokens text).
    + now apply NoDup_keys_count_words.
Qed.

(** The counting loop on a table: the tokens, the test, the counts and
    the keys of the tables built from the empty one. *)
Lemma collect_words_counts :
  forall (text : string) (d : table),
    String.concat EmptyString (Py.split text) = without_spaces text
    /\ (forall w, In w (Py.split text) ->
          Py.nonempty w = true /\ Py.all not_space w = true /\
          is_word w = Py.all Py.ascii_letter w)
    /\ (forall k,
          get (collect_words text d) k =
          get d k +
          List.length (filter (fun w => Py.all Py.ascii_letter w
                                   && String.eqb (Py.lower w) k)
                         (Py.split text)))
    /\ (forall pages,
          Forall (fun k => lower_word k = true) (keys (table_of_pages pages))).
Proof.
  intros text d; split; [apply split_covers_text|split; [|split]].
  - intros w H; destruct (split_tokens text w H) as [N S].
    repeat split; try assumption. now apply is_word_letters.
  - intros k; unfold collect_words.
    change (fun d w => if is_word w then incr (Py.lower w) d else d)
      with count_word.
    rewrite get_count_words; f_equal; f_equal.
    apply filter_ext_on; intros w H.
    now rewrite (is_word_letters w (proj1 (split_tokens text w H))).
  - intros pages; apply table_of_pages_keys.
Qed.

(** ** Finalization: the sort *)

Lemma insert_desc_perm (x : string * nat) (l : table) :
  Permutation (x :: l) (insert_desc x l).
Proof.
  induction l as [|y l IH]; simpl; [reflexivity|].
  destruct (snd y <=? snd x); [reflexivity|].
  rewrite perm_swap; now constructor.
Qed.

Lemma sorted_perm (l : table) : Permutation l (sorted_by_count_desc l).
Proof.
  induction l as [|x l IH]; simpl; [constructor|].
  rewrite <- insert_desc_perm; now constructor.
Qed.

Lemma insert_desc_sorted (x : string * nat) (l : table) :
  StronglySorted count_ge l -> StronglySorted count_ge (insert_desc x l).
Proof.
  induction l as [|y l IH]; simpl; intros S.
  - repeat constructor.
  - destruct (snd y <=? snd x) eqn:E.
    + apply Nat.leb_le in E. constructor; [assumption|].
      inversion S as [|? ? S' F]; subst. constructor; [exact E|].
      eapply Forall_impl; [|exact F]. unfold count_ge; intros; lia.
    + apply Nat.leb_gt in E. inversion S as [|? ? S' F]; subst.
      constructor; [now apply IH|].
      rewrite <- insert_desc_perm. constructor; [|assumption].
      unfold count_ge; lia.
Qed.

Lemma sorted_sorted (l : table) :
  StronglySorted count_ge (sorted_by_count_desc l).
Proof.
  induction l as [|x l IH]; simpl; [constructor|].
  now apply insert_desc_sorted.
Qed.

Lemma insert_desc_stable (c : nat) (x : string * nat) (l : table) :
  filter (has_count c) (insert_desc x l) = filter (has_count c) (x :: l).
Proof.
  induction l as [|y l IH]; [reflexivity|].
  cbn [insert_desc]. destruct (snd y <=? snd x) eqn:E; [reflexivity|].
  apply Nat.leb_gt in E.
  cbn [filter] in *. rewrite IH. unfold has_count.
  destruct (snd x =? c) eqn:X, (snd y =? c) eqn:Y; try reflexivity.
  apply Nat.eqb_eq in X, Y; lia.
Qed.

Lemma sorted_stable (c : nat) (l : table) :
  filter (has_count c) (sorted_by_count_desc l) = filter (has_count c) l.
Proof.
  induction l as [|x l IH]; [reflexivity|].
  cbn [sorted_by_count_desc fold_right]. rewrite insert_desc_stable.
  cbn [filter]. fold (sorted_by_count_desc l). now rewrite IH.
Qed.

Lemma dict_set_fresh {V : Type} (k : string) (v : V)
  (d : list (string * V)) :
  ~ In k (keys d) -> dict_set k v d = d ++ [(k, v)].
Proof.
  induction d as [|[k0 v0] d IH]; simpl; intros N; [reflexivity|].
  destruct (String.eqb k k0) eqn:E.
  - apply String.eqb_eq in E; subst; exfalso; apply N; now left.
  - rewrite IH; [reflexivity|]. intros H; apply N; now right.
Qed.

Lemma dict_fill_fresh {V : Type} (items d : list (string * V)) :
  NoDup (keys (d ++ items)) ->
  fold_left (fun d kv => dict_set (fst kv) (snd kv) d) items d = d ++ items.
Proof.
  revert d; induction items as [|[k v] items IH]; intros d N; simpl.
  - now rewrite app_nil_r.
  - assert (E : d ++ (k, v) :: items = (d ++ [(k, v)]) ++ items)
      by now rewrite <- app_assoc.
    rewrite dict_set_fresh.
    + rewrite E in N |- *. now apply IH.
    + unfold keys in N; rewrite map_app in N; simpl in N.
      apply NoDup_remove_2 in N. intros H; apply N, in_or_app; now left.
Qed.

Lemma dict_of_items_unique (items : table) :
  NoDup (keys items) -> dict_of_items items = items.
Proof. intros N; unfold dict_of_items; now rewrite dict_fill_fresh. Qed.

Lemma sorted_keys_unique (d : table) :
  NoDup (keys d) -> NoDup (keys (sorted_by_count_desc d)).
Proof.
  intros N; eapply Permutation_NoDup; [|exact N].
  unfold keys; apply Permutation_map, sorted_perm.
Qed.

Lemma sort_word_frequency_table (self : EnglishWordsParser) :
  NoDup (keys (word_frequency self)) ->
  word_frequency (sort_word_frequency self) =
  sorted_by_count_desc (word_frequency self).
Proof.
  intros N; unfold sort_word_frequency; simpl.
  now apply dict_of_items_unique, sorted_keys_unique.
Qed.

(** C7. Finalization rearranges the entries of a frequency table (a
    dictionary, so its keys are distinct) into a permutation of them whose
    counts never increase, and for each count the entries with that count
    stay in the order they had. *)
Theorem sort_word_frequency_stable_descending :
  forall (self : EnglishWordsParser),
    NoDup (keys (word_frequency self)) ->
    let before := word_frequency self in
    let after := word_frequency (sort_word_frequency self) in
    Permutation before after
    /\ StronglySorted count_ge after
    /\ (forall c, filter (has_count c) after = filter (has_count c) before).
Proof.
  intros self N before after; subst before after.
  rewrite (sort_word_frequency_table self N).
  split; [apply sorted_perm|split; [apply sorted_sorted|]].
  intros c; apply sorted_stable.
Qed.

Ltac distinct_strings :=
  repeat (constructor; [simpl; intuition discriminate|]); constructor.

Lemma sort_word_frequency_stable_descending_witness :
  let before := [("cat", 1); ("the", 2); ("sat", 1); ("on", 1)] in
  let after := [("the", 2); ("cat", 1); ("sat", 1); ("on", 1)] in
  NoDup (keys before)
  /\ word_frequency (sort_word_frequency (example_parser before)) = after
  /\ Permutation before after
  /\ StronglySorted count_ge after
  /\ (forall c, filter (has_count c) after = filter (has_count c) before).
Proof.
  intros before after.
  assert (N : NoDup (keys before)) by (subst before; distinct_strings).
  split; [exact N|]. split; [reflexivity|].
  exact (sort_word_frequency_stable_descending (example_parser before) N).
Defined.

(** ** Persistence: the records and their reading *)
















Lemma universal_newlines_id (s : string) :
  Py.all (fun c => negb (Ascii.eqb c CR)) s = true ->
  universal_newlines s = s.
Proof.
  induction s as [|c s IH]; simpl; [reflexivity|].
  intros A; apply andb_true_iff in A as [Hc A].
  apply negb_true_iff in Hc; rewrite Hc. now rewrite IH.
Qed.















Lemma get_not_key (d : table) (k : string) :
  ~ In k (keys d) -> get d k = 0.
Proof.
  induction d as [|[k0 n] d IH]; simpl; intros N; [reflexivity|].
  destruct (String.eqb k k0) eqn:E.
  - apply String.eqb_eq in E; subst; exfalso; apply N; now left.
  - apply IH; intros H; apply N; now right.
Qed.

Lemma get_perm (d d' : table) (k : string) :
  Permutation d d' -> NoDup (keys d) -> get d k = get d' k.
Proof.
  induction 1 as [|[k0 n] d d' P IH|[k0 n] [k1 m] d|d d' d'' P IH P' IH'];
    intros N.
  - reflexivity.
  - simpl. inversion N; subst. now rewrite IH.
  - simpl. destruct (String.eqb k k1) eqn:E1, (String.eqb k k0) eqn:E0;
      try reflexivity.
    apply String.eqb_eq in E1, E0; subst.
    inversion N as [|? ? H _]; subst. exfalso; apply H; now left.
  - rewrite IH by assumption. apply IH'.
    eapply Permutation_NoDup; [|exact N].
    unfold keys; now apply Permutation_map.
Qed.










(** ** The URL classifier and the crawl driver *)

Section CrawlerFacts.
Context {caps : Capabilities}.

Lemma nonempty_false (s : string) :
  Py.nonempty s = false <-> s = EmptyString.
Proof. destruct s; simpl; split; congruence. Qed.

Lemma admissible_spec (url : string) (self : EnglishWordsParser) :
  admissible url self = true <-> admitted url self.
Proof.
  unfold admissible, admitted, page_like, same_netloc.
  rewrite !andb_true_iff, orb_true_iff, !negb_true_iff.
  rewrite nonempty_false, !mem_not_In, String.eqb_eq. tauto.
Qed.

Lemma parse_url_admitted (url : string) (self : EnglishWordsParser) :
  admitted url self ->
  parse_url url self = set_to_parse_links (to_parse_links self ++ [url]) self.
Proof.
  intros A; unfold parse_url.
  now rewrite (proj2 (admissible_spec url self) A).
Qed.

Lemma parse_url_discarded (url : string) (self : EnglishWordsParser) :
  ~ admitted url self -> parse_url url self = self.
Proof.
  intros A; unfold parse_url.
  destruct (admissible url self) eqn:E; [|reflexivity].
  now apply admissible_spec in E.
Qed.

Lemma parse_url_fields (url : string) (self : EnglishWordsParser) :
  base_url (parse_url url self) = base_url self
  /\ parsed_links (parse_url url self) = parsed_links self
  /\ word_frequency (parse_url url self) = word_frequency self
  /\ current_link (parse_url url self) = current_link self
  /\ output_file (parse_url url self) = output_file self.
Proof. unfold parse_url; destruct (admissible url self); simpl; auto. Qed.

Lemma parse_url_queue (url : string) (self : EnglishWordsParser) :
  to_parse_links (parse_url url self) =
  to_parse_links self ++ (if admissible url self then [url] else []).
Proof.
  unfold parse_url; destruct (admissible url self); simpl;
    [reflexivity|now rewrite app_nil_r].
Qed.

Lemma admit_links_fields (cur : string) (hrefs : list string)
  (self : EnglishWordsParser) :
  base_url (admit_links cur hrefs self) = base_url self
  /\ parsed_links (admit_links cur hrefs self) = parsed_links self
  /\ word_frequency (admit_links cur hrefs self) = word_frequency self
  /\ current_link (admit_links cur hrefs self) = current_link self
  /\ exists added,
       to_parse_links (admit_links cur hrefs self) =
       to_parse_links self ++ added.
Proof.
  revert self; induction hrefs as [|h hrefs IH]; intros self.
  - simpl; repeat split; exists []; now rewrite app_nil_r.
  - cbn [admit_links fold_left].
    destruct (IH (parse_url (urljoin cur h) self))
      as (B & P & W & C & added & Q).
    destruct (parse_url_fields (urljoin cur h) self) as (B' & P' & W' & C' & _).
    unfold admit_links in *.
    rewrite B, P, W, C, Q, parse_url_queue, <- app_assoc.
    repeat split; try assumption. eexists; reflexivity.
Qed.

(** The loop over the anchors returns exactly when [urljoin] raises on
    none of them, and then it has submitted every resolved link. *)
Lemma add_links_joinable (cur : string) (hrefs : list string)
  (self : EnglishWordsParser) :
  current_link self = Some cur ->
  add_links hrefs self =
  if joinable cur hrefs then Ok (admit_links cur hrefs self)
  else Raise ValueError.
Proof.
  revert self; induction hrefs as [|h hrefs IH]; intros self C;
    [reflexivity|].
  cbn [add_links joinable forallb admit_links fold_left]. rewrite C.
  destruct (urljoin_raises cur h); [reflexivity|]. cbn [negb andb].
  apply IH. now destruct (parse_url_fields (urljoin cur h) self)
    as (_ & _ & _ & -> & _).
Qed.



Lemma find_links_result (text link : string)
  (self self' : EnglishWordsParser) :
  current_link self = Some link ->
  find_links_and_add_to_parse text self = Ok self' ->
  self' = admit_links link (find_all_href text) self.
Proof.
  intros C; unfold find_links_and_add_to_parse.
  rewrite (add_links_joinable link) by assumption.
  destruct (joinable link (find_all_href text)); [|discriminate].
  now intros [= <-].
Qed.



Lemma loop_body_skip (get : string -> response) (self : EnglishWordsParser)
  (link : string) (rest : list string) :
  to_parse_links self = link :: rest ->
  fetch_page_content get link = EmptyString ->
  loop_body get self = Ok (popped link rest self).
Proof. intros Q G; unfold loop_body; now rewrite Q, G. Qed.

Lemma loop_body_cases (get : string -> response) (self self' : EnglishWordsParser) :
  loop_body get self = Ok self' ->
  exists link rest,
    to_parse_links self = link :: rest
    /\ (self' = popped link rest self
        \/ exists text, self' = processed link text rest self).
Proof.
  unfold loop_body; destruct (to_parse_links self) as [|link rest] eqn:Q;
    [discriminate|].
  intros H; exists link, rest; split; [reflexivity|].
  destruct (Py.nonempty (fetch_page_content get link)).
  - destruct (find_links_and_add_to_parse _ _) as [found|e] eqn:F;
      [|discriminate].
    apply (find_links_result _ link) in F; [|reflexivity].
    injection H as <-. subst found. right; eexists; reflexivity.
  - injection H as <-. now left.
Qed.

(** C1, amended. [parse_url] appends the candidate to the queue, and
    changes nothing else, exactly when (a) its path is empty or has no
    dot, (b) it is not in the queue, (c) it is not among the parsed links
    and (d) its netloc equals the netloc of the stored base URL; the
    schemes are not compared.  Otherwise the state is returned as it
    was. *)
Theorem parse_url_admits_iff :
  forall (url : string) (self : EnglishWordsParser),
    (admitted url self ->
     parse_url url self =
     set_to_parse_links (to_parse_links self ++ [url]) self)
    /\ (~ admitted url self -> parse_url url self = self).
Proof.
  intros url self; split;
    [apply parse_url_admitted|apply parse_url_discarded].
Qed.

(** C10, amended. The constructor succeeds on every list of initial
    links whose first link [urlparse] accepts: the base URL is the scheme
    and the netloc of that first link, written [scheme://netloc], the
    queue is the list itself and nothing is parsed or counted yet.  When
    [urlparse] rejects the first link the constructor raises
    [ValueError], on the empty list it raises [IndexError], and it raises
    in no other case. *)
Theorem init_needs_first_link :
  forall (output : string),
    (forall first others,
       urlparse_raises first = false ->
       init (first :: others) output =
       Ok (mkParser
             (scheme (urlparse first) ++ "://" ++ netloc (urlparse first))
             (first :: others) [] output [] None))
    /\ (forall first others,
          urlparse_raises first = true ->
          init (first :: others) output = Raise ValueError)
    /\ init [] output = Raise IndexError
    /\ (forall initial_links e,
          init initial_links output = Raise e ->
          (e = IndexError /\ initial_links = [])
          \/ (e = ValueError
              /\ exists first others,
                   initial_links = first :: others
                   /\ urlparse_raises first = true)).
Proof.
  intros output; repeat split.
  - intros first others U; cbn [init]; now rewrite U.
  - intros first others U; cbn [init]; now rewrite U.
  - intros [|first others] e H; cbn [init] in H;
      [left; split; congruence|].
    destruct (urlparse_raises first) eqn:U;
      [|discriminate].
    right; split; [congruence|]. now exists first, others.
Qed.


(** C5, amended. When the fetch of the link at the head of the queue
    fails, the iteration only removes it from the queue: the parsed links
    and the word table are as before and no link is added; the loop goes
    on with the rest of the queue; the link is admitted again at once if
    it is page-like, has the base netloc and is neither queued a second
    time nor already parsed, and in any later state [parse_url] queues it
    whenever it passes the four tests there. *)
Theorem failed_fetch_drops_link :
  forall (web : Web) (n fuel : nat) (self : EnglishWordsParser)
         (link : string) (rest : list string),
    to_parse_links self = link :: rest ->
    web n link = RequestException ->
    let self' := popped link rest self in
    loop_body (web n) self = Ok self'
    /\ to_parse_links self' = rest
    /\ parsed_links self' = parsed_links self
    /\ word_frequency self' = word_frequency self
    /\ parse_all_links web (S fuel) n self =
       parse_all_links web fuel (S n) self'
    /\ (page_like link -> same_netloc link (base_url self) ->
        ~ In link rest -> ~ In link (parsed_links self) ->
        admitted link self')
    /\ (forall later,
          admitted link later ->
          parse_url link later =
          set_to_parse_links (to_parse_links later ++ [link]) later).
Proof.
  intros web n fuel self link rest Q G self'.
  assert (L : loop_body (web n) self = Ok self').
  { apply loop_body_skip; [assumption|].
    unfold fetch_page_content; now rewrite G. }
  repeat split; try assumption; try reflexivity.
  - cbn [parse_all_links]. now rewrite Q, L.
  - intros later; apply parse_url_admitted.
Qed.

(** *** The queue discipline *)




Lemma parse_all_links_crawl (web : Web) (fuel n : nat)
  (self self' : EnglishWordsParser) :
  parse_all_links web fuel n self = Some (Ok self') ->
  to_parse_links self' = []
  /\ exists trace, crawl web n self trace self'.
Proof.
  revert n self; induction fuel as [|fuel IH]; intros n self H;
    cbn [parse_all_links] in H;
    destruct (to_parse_links self) as [|link rest] eqn:Q.
  - injection H as <-; split; [assumption|exists []; constructor].
  - discriminate.
  - injection H as <-; split; [assumption|exists []; constructor].
  - destruct (loop_body (web n) self) as [self1|e] eqn:L; [|discriminate].
    destruct (IH _ _ H) as (E & trace & C).
    split; [assumption|]. exists (link :: trace).
    now apply (crawl_step web n self link rest self1).
Qed.

(** *** The states of a crawl *)

Lemma admit_links_reachable (initial_links : list string) (output : string)
  (cur : string) (hrefs : list string) (self : EnglishWordsParser) :
  reachable initial_links output self ->
  reachable initial_links output (admit_links cur hrefs self).
Proof.
  revert self; induction hrefs as [|h hrefs IH]; intros self R;
    [assumption|].
  cbn [admit_links fold_left]. apply IH. now apply reach_admit.
Qed.

Lemma loop_body_reachable (initial_links : list string) (output : string)
  (get : string -> response) (self self' : EnglishWordsParser) :
  reachable initial_links output self ->
  loop_body get self = Ok self' ->
  reachable initial_links output self'.
Proof.
  intros R L; destruct (loop_body_cases get self self' L)
    as (link & rest & Q & [->|[text ->]]).
  - now apply reach_pop.
  - unfold processed. apply reach_parsed.
    + apply admit_links_reachable, reach_words. now apply reach_pop.
    + now destruct (admit_links_fields link (find_all_href text)
                      (collect_words_from_text text (popped link rest self)))
        as (_ & _ & _ & C & _).
Qed.


(** C2, amended. When the initial links are pairwise distinct and all
    have the netloc of the base URL, then in every state of the crawl the
    queued links are pairwise distinct and have the netloc of the base URL,
    and a link that [parse_url] adds to the queue is not among the parsed
    links at that moment. *)
Theorem queue_invariant :
  forall (initial_links : list string) (output : string)
         (self : EnglishWordsParser),
    NoDup initial_links ->
    Forall (fun u => same_netloc u
                       (extract_base_url (hd EmptyString initial_links)))
           initial_links ->
    reachable initial_links output self ->
    NoDup (to_parse_links self)
    /\ Forall (fun u => same_netloc u (base_url self)) (to_parse_links self)
    /\ (forall url,
          to_parse_links (parse_url url self) <> to_parse_links self ->
          ~ In url (parsed_links self)
          /\ to_parse_links (parse_url url self) =
             to_parse_links self ++ [url]).
Proof.
  intros initial_links output self N F R.
  assert (I : NoDup (to_parse_links self)
              /\ Forall (fun u => same_netloc u (base_url self))
                        (to_parse_links self)).
  { induction R as [self E|self link rest R IH Q|self text R IH
                    |self url R IH|self link R IH C].
    - destruct initial_links as [|first others]; [discriminate|].
      cbn [init] in E; destruct (urlparse_raises first); [discriminate|].
      injection E as <-; simpl in *; now split.
    - destruct IH as [N' F']; rewrite Q in *; simpl.
      inversion N'; inversion F'; subst; now split.
    - exact IH.
    - destruct IH as [N' F']. destruct (parse_url_fields url self) as (B & _).
      rewrite B, parse_url_queue.
      destruct (admissible url self) eqn:A;
        [|rewrite app_nil_r; now split].
      apply admissible_spec in A as (_ & Nq & _ & S). split.
      + apply NoDup_app; [assumption|repeat constructor; intros []|].
        intros x Hx [<-|[]]; contradiction.
      + apply Forall_app; split; [assumption|now constructor].
    - exact IH. }
  destruct I as [N' F']; repeat split; try assumption.
  - intros P. destruct (admissible url self) eqn:A.
    + now apply admissible_spec in A as (_ & _ & Np & _).
    + rewrite parse_url_queue, A, app_nil_r in H. now apply H.
  - rewrite parse_url_queue in *.
    destruct (admissible url self); [reflexivity|].
    rewrite app_nil_r in H; now destruct H.
Qed.

(** The word table of every state of a crawl is the table of the pages
    counted so far. *)
Lemma reachable_table (initial_links : list string) (output : string)
  (self : EnglishWordsParser) :
  reachable initial_links output self ->
  exists pages, word_frequency self = table_of_pages pages.
Proof.
  induction 1 as [self E|self link rest R IH Q|self text R IH
                  |self url R IH|self link R IH C].
  - destruct initial_links as [|first others]; [discriminate|].
    cbn [init] in E; destruct (urlparse_raises first); [discriminate|].
    injection E as <-. now exists [].
  - exact IH.
  - destruct IH as (pages & E). exists (pages ++ [text]).
    rewrite table_of_pages_snoc, <- E. reflexivity.
  - destruct IH as (pages & E). exists pages.
    now destruct (parse_url_fields url self) as (_ & _ & -> & _).
  - exact IH.
Qed.

(** The loop raises nothing but the [ValueError] of [urljoin]: it pops
    only from a queue it found not empty, and reads [current_link] only
    after setting it. *)
Lemma loop_body_raises (get : string -> response)
  (self : EnglishWordsParser) (e : exn) :
  to_parse_links self <> [] ->
  loop_body get self = Raise e ->
  e = ValueError.
Proof.
  intros N; destruct (to_parse_links self) as [|link rest] eqn:Q;
    [contradiction|].
  unfold loop_body; rewrite Q.
  destruct (Py.nonempty (fetch_page_content get link)); [|discriminate].
  unfold find_links_and_add_to_parse.
  rewrite (add_links_joinable link) by reflexivity.
  destruct (joinable link _); [discriminate|congruence].
Qed.

Lemma parse_all_links_raises (web : Web) (fuel n : nat)
  (self : EnglishWordsParser) (e : exn) :
  parse_all_links web fuel n self = Some (Raise e) -> e = ValueError.
Proof.
  revert n self; induction fuel as [|fuel IH]; intros n self;
    cbn [parse_all_links];
    destruct (to_parse_links self) as [|link rest] eqn:Q; try discriminate.
  destruct (loop_body (web n) self) as [self'|e'] eqn:L.
  - apply IH.
  - intros [= <-]. apply (loop_body_raises (web n) self); [|assumption].
    rewrite Q; discriminate.
Qed.

(** C6. The word extractor splits the text on white space (the tokens
    are not empty, hold no white space and together make up the text
    without its white space); a token is counted exactly when all its
    characters are ASCII letters; in every state of a crawl
    [collect_words_from_text] adds one to the count of the token's
    lower-case form for each counted occurrence and changes nothing
    else; and every key of [word_frequency], before the call, after it
    and in the table that [save_to_file] sorts, is a non-empty word of
    lower-case ASCII letters. *)
Theorem collect_words_counts_ascii_words :
  forall (initial_links : list string) (output text : string)
         (self : EnglishWordsParser),
    reachable initial_links output self ->
    String.concat EmptyString (Py.split text) = without_spaces text
    /\ (forall w, In w (Py.split text) ->
          Py.nonempty w = true /\ Py.all not_space w = true /\
          is_word w = Py.all Py.ascii_letter w)
    /\ (forall k,
          get (word_frequency (collect_words_from_text text self)) k =
          get (word_frequency self) k +
          List.length (filter (fun w => Py.all Py.ascii_letter w
                                   && String.eqb (Py.lower w) k)
                         (Py.split text)))
    /\ base_url (collect_words_from_text text self) = base_url self
    /\ to_parse_links (collect_words_from_text text self) =
       to_parse_links self
    /\ parsed_links (collect_words_from_text text self) =
       parsed_links self
    /\ current_link (collect_words_from_text text self) =
       current_link self
    /\ Forall (fun k => lower_word k = true) (keys (word_frequency self))
    /\ Forall (fun k => lower_word k = true)
              (keys (word_frequency (collect_words_from_text text self)))
    /\ Forall (fun k => lower_word k = true)
              (keys (word_frequency
                       (fst (save_to_file
                               (collect_words_from_text text self))))).
Proof.
  intros initial_links output text self R.
  destruct (collect_words_counts text (word_frequency self))
    as (S & T & G & _).
  assert (K : forall self',
             reachable initial_links output self' ->
             Forall (fun k => lower_word k = true)
                    (keys (word_frequency self'))).
  { intros self' R'; destruct (reachable_table _ _ _ R') as (pages & ->).
    apply table_of_pages_keys. }
  pose proof (reach_words _ _ self text R) as R'.
  split; [exact S|]. split; [exact T|]. split; [exact G|].
  do 4 (split; [reflexivity|]).
  split; [now apply K|]. split; [now apply K|].
  destruct (reachable_table _ _ _ R') as (pages & E).
  unfold save_to_file; cbn [fst].
  rewrite sort_word_frequency_table
    by (rewrite E; apply table_of_pages_keys).
  eapply Permutation_Forall; [|apply (K _ R')].
  unfold keys; apply Permutation_map, sorted_perm.
Qed.


End CrawlerFacts.

(** ** The model of [urlparse]: the netloc of the base URL

    [extract_base_url] writes the scheme and the netloc of the first link
    as [scheme://netloc], and [parse_url] parses that text again.  On the
    model, a link that has a scheme gives back its own netloc. *)

Lemma break_fst_clean (stop : ascii -> bool) (s : string) :
  Py.all (fun c => negb (stop c)) (fst (Model.break stop s)) = true.
Proof.
  induction s as [|c s IH]; simpl; [reflexivity|].
  destruct (stop c) eqn:E; [reflexivity|].
  destruct (Model.break stop s) as [a b]; simpl in *. now rewrite E, IH.
Qed.

Lemma break_clean (stop : ascii -> bool) (s : string) :
  Py.all (fun c => negb (stop c)) s = true ->
  Model.break stop s = (s, EmptyString).
Proof.
  induction s as [|c s IH]; simpl; [reflexivity|].
  intros A; apply andb_true_iff in A as [Hc A].
  apply negb_true_iff in Hc; now rewrite Hc, (IH A).
Qed.

Lemma break_at (stop : ascii -> bool) (a b : string) (c : ascii) :
  Py.all (fun c => negb (stop c)) a = true ->
  stop c = true ->
  Model.break stop (a ++ String c b)%string = (a, String c b).
Proof.
  intros A C; induction a as [|x a IH]; simpl; [now rewrite C|].
  simpl in A; apply andb_true_iff in A as [Hx A].
  apply negb_true_iff in Hx; now rewrite Hx, (IH A).
Qed.

Lemma lower_scheme_char (c : ascii) :
  Model.scheme_char c = true ->
  Model.scheme_char (Py.char_lower c) = true
  /\ negb (Ascii.eqb (Py.char_lower c) ":"%char) = true.
Proof. by_cases_on_char c; intros _; split; reflexivity. Qed.

Lemma lower_letter (c : ascii) :
  Py.ascii_letter c = true -> Py.ascii_letter (Py.char_lower c) = true.
Proof. by_cases_on_char c. Qed.

Lemma lower_lower_char (c : ascii) :
  Py.char_lower (Py.char_lower c) = Py.char_lower c.
Proof. by_cases_on_char c. Qed.

Lemma lower_lower (s : string) : Py.lower (Py.lower s) = Py.lower s.
Proof.
  induction s as [|c s IH]; simpl; [reflexivity|].
  now rewrite lower_lower_char, IH.
Qed.

Lemma lower_scheme (s : string) :
  Py.all Model.scheme_char s = true ->
  Py.all Model.scheme_char (Py.lower s) = true
  /\ Py.all (fun c => negb (Ascii.eqb c ":"%char)) (Py.lower s) = true.
Proof.
  induction s as [|c s IH]; simpl; [now split|].
  intros A; apply andb_true_iff in A as [Hc A].
  destruct (lower_scheme_char c Hc) as [H1 H2], (IH A) as [H3 H4].
  now rewrite H1, H2, H3, H4.
Qed.


Lemma split_netloc_clean (url : string) :
  Py.all (fun c => negb (Py.contains c "/?#"))
         (fst (Model.split_netloc url)) = true.
Proof.
  unfold Model.split_netloc.
  destruct (Model.strip_prefix "//" url); [apply break_fst_clean|reflexivity].
Qed.


Lemma model_urlparse_fields (url : string) :
  scheme (Model.urlparse url) = fst (Model.split_scheme (Model.cleaned url))
  /\ netloc (Model.urlparse url) =
     fst (Model.split_netloc
            (snd (Model.split_scheme (Model.cleaned url)))).
Proof.
  unfold Model.urlparse, Model.parse.
  destruct (Model.split_scheme (Model.cleaned url)) as [sch url1].
  cbn [fst snd].
  destruct (Model.split_netloc url1) as [net url2].
  destruct (Model.cut "#"%char url2) as [url3 f].
  destruct (Model.cut "?"%char url3) as [url4 q].
  cbv zeta.
  match goal with
  | |- context [let (p, params) := ?x in _] => destruct x as [p params]
  end.
  cbn [scheme netloc fst snd Model.p_scheme Model.p_netloc].
  now destruct sch.
Qed.

Lemma remove_unsafe_safe (s : string) :
  Py.all safe_char (Model.remove_unsafe s) = true.
Proof.
  induction s as [|c s IH]; simpl; [reflexivity|].
  destruct ((Py.code c =? 9) || (Py.code c =? 10) || (Py.code c =? 13))
    eqn:E; [assumption|].
  simpl; unfold safe_char at 1; now rewrite E, IH.
Qed.

Lemma remove_unsafe_id (s : string) :
  Py.all safe_char s = true -> Model.remove_unsafe s = s.
Proof.
  induction s as [|c s IH]; simpl; [reflexivity|].
  intros A; apply andb_true_iff in A as [Hc A].
  unfold safe_char in Hc; apply negb_true_iff in Hc.
  now rewrite Hc, (IH A).
Qed.

Lemma all_break (p stop : ascii -> bool) (s : string) :
  Py.all p s = true ->
  Py.all p (fst (Model.break stop s)) = true
  /\ Py.all p (snd (Model.break stop s)) = true.
Proof.
  induction s as [|c s IH]; simpl; [now split|].
  intros A; destruct (stop c); [now split|].
  apply andb_true_iff in A as [Hc A]. destruct (IH A) as [F S].
  destruct (Model.break stop s) as [a b]; simpl in *.
  now rewrite Hc, F, S.
Qed.

Lemma all_strip_prefix (p : ascii -> bool) (pre s r : string) :
  Model.strip_prefix pre s = Some r ->
  Py.all p s = true -> Py.all p r = true.
Proof.
  revert s; induction pre as [|a pre IH]; intros s; simpl.
  - now intros [= <-].
  - destruct s as [|b s]; [discriminate|].
    destruct (Ascii.eqb a b); [|discriminate].
    intros H A; simpl in A; apply andb_true_iff in A as [_ A].
    now apply (IH s).
Qed.

Lemma all_split_scheme (p : ascii -> bool) (s : string) :
  Py.all p s = true -> Py.all p (snd (Model.split_scheme s)) = true.
Proof.
  intros A; unfold Model.split_scheme.
  destruct (all_break p (Ascii.eqb ":"%char) s A) as [_ S].
  destruct (Model.break (Ascii.eqb ":"%char) s) as [[|c0 pre] [|c rest]];
    try assumption.
  destruct (Py.ascii_letter c0 && Py.all Model.scheme_char (String c0 pre));
    [|assumption].
  simpl in S |- *. now apply andb_true_iff in S as [_ S].
Qed.

Lemma all_split_netloc (p : ascii -> bool) (s : string) :
  Py.all p s = true -> Py.all p (fst (Model.split_netloc s)) = true.
Proof.
  intros A; unfold Model.split_netloc.
  destruct (Model.strip_prefix "//" s) as [r|] eqn:E; [|reflexivity].
  apply all_break. now apply (all_strip_prefix p "//" s).
Qed.

Lemma scheme_char_safe (c : ascii) :
  Model.scheme_char c = true -> safe_char c = true.
Proof. by_cases_on_char c. Qed.

Lemma letter_not_c0 (c : ascii) :
  Py.ascii_letter c = true -> (Py.code c <=? 32) = false.
Proof. by_cases_on_char c. Qed.

Lemma split_scheme_found (url : string) :
  fst (Model.split_scheme url) <> EmptyString ->
  exists c0 pre,
    fst (Model.split_scheme url) = Py.lower (String c0 pre)
    /\ Py.ascii_letter c0 = true
    /\ Py.all Model.scheme_char (String c0 pre) = true.
Proof.
  unfold Model.split_scheme.
  destruct (Model.break (Ascii.eqb ":"%char) url) as [[|c0 pre] [|c rest]];
    simpl; try congruence.
  destruct (Py.ascii_letter c0) eqn:L; simpl; [|congruence].
  destruct (Model.scheme_char c0 && Py.all Model.scheme_char pre) eqn:A;
    simpl; [|congruence].
  intros _; now exists c0, pre.
Qed.

Lemma split_scheme_of_base (c0 : ascii) (pre rest : string) :
  Py.ascii_letter c0 = true ->
  Py.all Model.scheme_char (String c0 pre) = true ->
  Model.split_scheme (Py.lower (String c0 pre) ++ String ":"%char rest) =
  (Py.lower (String c0 pre), rest).
Proof.
  intros L A; unfold Model.split_scheme.
  destruct (lower_scheme _ A) as [S C].
  assert (C' : Py.all (fun c => negb (Ascii.eqb ":"%char c))
                      (Py.lower (String c0 pre)) = true).
  { eapply all_impl; [|exact C]. intros c H; now rewrite Ascii.eqb_sym. }
  rewrite (break_at (Ascii.eqb ":"%char) _ rest ":"%char C' eq_refl).
  cbn [Py.lower]. cbn [Py.lower] in S.
  now rewrite (lower_letter c0 L), S, lower_lower_char, lower_lower.
Qed.

Lemma model_base_url_netloc (url : string) :
  scheme (urlparse url) <> EmptyString ->
  netloc (urlparse (extract_base_url url)) = netloc (urlparse url).
Proof.
  unfold extract_base_url.
  change (@urlparse Model.caps) with Model.urlparse.
  destruct (model_urlparse_fields url) as [S N]. rewrite S, N.
  intros F.
  destruct (split_scheme_found (Model.cleaned url) F)
    as (c0 & pre & E & L & A).
  rewrite E.
  set (net := fst (Model.split_netloc
                     (snd (Model.split_scheme (Model.cleaned url))))).
  assert (Sn : Py.all safe_char net = true)
    by apply all_split_netloc, all_split_scheme, remove_unsafe_safe.
  destruct (lower_scheme _ A) as [Sl _].
  destruct (model_urlparse_fields
              (Py.lower (String c0 pre) ++ String ":"%char ("//" ++ net)))
    as [_ N'].
  cbn [append] in N' |- *. rewrite N'.
  assert (C : Model.cleaned
                (Py.lower (String c0 pre) ++ String ":"%char ("//" ++ net)) =
              (Py.lower (String c0 pre) ++ String ":"%char ("//" ++ net))%string).
  { unfold Model.cleaned. cbn [Py.lower append Model.lstrip_c0].
    rewrite (letter_not_c0 _ (lower_letter c0 L)).
    apply remove_unsafe_id.
    cbn [Py.lower Py.all] in Sl; apply andb_true_iff in Sl as [Sc Sp].
    cbn [Py.all]. rewrite (scheme_char_safe _ Sc), all_app.
    rewrite (all_impl _ _ _ scheme_char_safe Sp). cbn [Py.all andb].
    now rewrite Sn. }
  cbn [append] in C. rewrite C.
  pose proof (split_scheme_of_base c0 pre ("//" ++ net) L A) as B.
  cbn [append] in B. rewrite B. cbn [snd].
  unfold Model.split_netloc at 1; cbn.
  now rewrite break_clean by apply split_netloc_clean.
Qed.

(** ** Examples on the model of the capabilities *)

Example init_seed : init [seed] words_file = Ok crawler.
Proof. reflexivity. Qed.

Example links_page_admissions :
  loop_body (fun _ => Body links_page) crawler =
  Ok (mkParser "https://example.com" [about] [seed] words_file
               [("see", 1)] (Some seed)).
Proof. reflexivity. Qed.

(** An initial link without a scheme: the base URL is [://host], which
    has no netloc when parsed again, so no link of [host] is admitted. *)
Example schemeless_seed :
  extract_base_url "//host/x" = "://host"
  /\ netloc (urlparse "//host/x") = "host"
  /\ netloc (urlparse (extract_base_url "//host/x")) = "".
Proof. repeat split. Qed.

Lemma parse_url_admits_iff_witness :
  (admitted about crawler
   /\ parse_url about crawler = set_to_parse_links [seed; about] crawler)
  /\ (~ admitted "https://example.com/image.png" crawler
      /\ parse_url "https://example.com/image.png" crawler = crawler).
Proof.
  assert (A : admitted about crawler) by (now apply admissible_spec).
  assert (B : ~ admitted "https://example.com/image.png" crawler).
  { intros H; apply admissible_spec in H; discriminate. }
  split; split; try assumption.
  - exact (proj1 (parse_url_admits_iff about crawler) A).
  - exact (proj2 (parse_url_admits_iff _ crawler) B).
Defined.

(** C1 as stated fails: a link with the seed's host but another scheme,
    whose scheme and host together differ from the seed's, is admitted. *)
Lemma other_scheme_is_admitted :
  init [seed] words_file = Ok crawler
  /\ scheme (urlparse "http://example.com/about") = "http"
  /\ scheme (urlparse seed) = "https"
  /\ extract_base_url "http://example.com/about" <> extract_base_url seed
  /\ parse_url "http://example.com/about" crawler =
     set_to_parse_links [seed; "http://example.com/about"] crawler.
Proof. repeat split. intros E; discriminate E. Qed.

Lemma init_needs_first_link_witness :
  urlparse_raises seed = false
  /\ init [seed; about] words_file =
     Ok (mkParser "https://example.com" [seed; about] [] words_file [] None)
  /\ urlparse_raises "http://[" = true
  /\ init ["http://["; about] words_file = Raise ValueError
  /\ init [] words_file = Raise IndexError.
Proof.
  destruct (init_needs_first_link words_file) as (A & B & C & _).
  split; [reflexivity|]. split; [exact (A seed [about] eq_refl)|].
  split; [reflexivity|]. split; [exact (B "http://[" [about] eq_refl)|].
  exact C.
Defined.

(** C10 as stated fails: the constructor raises on a list that is not
    empty, when [urlparse] rejects its first link. *)
Lemma bracket_seed_is_rejected :
  ["http://["; about] <> []
  /\ urlparse_raises "http://[" = true
  /\ init ["http://["; about] words_file = Raise ValueError.
Proof. repeat split. discriminate. Qed.


(** The [ValueError] of a broken anchor ends the crawl; the links of the
    anchors before it are queued by then. *)
Example broken_anchor_ends_the_crawl :
  add_links (find_all_href broken_page) (popped seed [] crawler) =
  Raise ValueError
  /\ parse_all_links broken_web 5 0 crawler = Some (Raise ValueError).
Proof. split; reflexivity. Qed.

(** References are resolved against the current link before they are
    classified. *)
Example relative_links_are_resolved :
  map (urljoin "https://example.com/a/b")
      ["c"; "../c"; "/c"; "//example.com/docs"; "?q"; "./"] =
  ["https://example.com/a/c"; "https://example.com/c";
   "https://example.com/c"; "https://example.com/docs";
   "https://example.com/a/b?q"; "https://example.com/a/"].
Proof. reflexivity. Qed.


Lemma failed_fetch_drops_link_witness :
  to_parse_links crawler = [seed]
  /\ dead_web 0 seed = RequestException
  /\ loop_body (dead_web 0) crawler = Ok (popped seed [] crawler)
  /\ parse_all_links dead_web 1 0 crawler =
     parse_all_links dead_web 0 1 (popped seed [] crawler)
  /\ admitted seed (popped seed [] crawler).
Proof.
  destruct (failed_fetch_drops_link dead_web 0 0 crawler seed []
              eq_refl eq_refl) as (L & _ & _ & _ & P & A & _).
  split; [reflexivity|]. split; [reflexivity|].
  split; [exact L|]. split; [exact P|].
  apply A; [now left|reflexivity|intros []|intros []].
Defined.

(** C5 as stated fails: the fetch of the queued [data_file] fails, the
    next page links to it, and it is not queued again: its path has a
    dot. *)
Lemma failed_file_is_not_queued_again :
  let start :=
    mkParser "https://example.com" [data_file; seed] [] words_file [] None in
  let failed := popped data_file [seed] start in
  init [data_file; seed] words_file = Ok start
  /\ data_web 0 data_file = RequestException
  /\ loop_body (data_web 0) start = Ok failed
  /\ map (urljoin seed) (find_all_href data_page) = [data_file]
  /\ loop_body (data_web 1) failed =
     Ok (mkParser "https://example.com" [] [seed] words_file
                  [("data", 1)] (Some seed))
  /\ parse_url data_file failed = failed.
Proof. repeat split. Qed.

(** C3 fails on a page that links to itself: while its links are read the
    current link is neither queued nor parsed, so it is queued again, and
    the page is fetched and processed a second time: it is recorded twice
    among the parsed links and its words are counted twice. *)
Lemma self_link_is_parsed_twice :
  init [home] words_file =
  Ok (mkParser "https://example.com" [home] [] words_file [] None)
  /\ parse_all_links home_web 2 0
       (mkParser "https://example.com" [home] [] words_file [] None) =
     Some (Ok (mkParser "https://example.com" [] [home; home] words_file
                        [("welcome", 2)] (Some home))).
Proof. split; reflexivity. Qed.

(** C2 as stated fails in the initial state: the initial links are queued
    as they are given. *)
Lemma initial_links_are_not_classified :
  exists self,
    reachable mixed_seeds words_file self
    /\ to_parse_links self = mixed_seeds
    /\ ~ NoDup (to_parse_links self)
    /\ Exists (fun u => ~ same_netloc u (base_url self)) (to_parse_links self).
Proof.
  eexists; split; [apply reach_init; reflexivity|].
  split; [reflexivity|]. split.
  - intros N; inversion N as [|? ? _ N']; subst.
    inversion N' as [|? ? H _]; subst. apply H; now left.
  - right; left. intros E; discriminate E.
Qed.

Lemma queue_invariant_witness :
  NoDup site_seeds
  /\ reachable site_seeds words_file after_links_page
  /\ NoDup (to_parse_links after_links_page)
  /\ Forall (fun u => same_netloc u (base_url after_links_page))
            (to_parse_links after_links_page)
  /\ (forall url,
        to_parse_links (parse_url url after_links_page) <>
        to_parse_links after_links_page ->
        ~ In url (parsed_links after_links_page)
        /\ to_parse_links (parse_url url after_links_page) =
           to_parse_links after_links_page ++ [url]).
Proof.
  assert (N : NoDup site_seeds) by (unfold site_seeds; distinct_strings).
  assert (R : reachable site_seeds words_file after_links_page).
  { apply (loop_body_reachable site_seeds words_file
             (fun _ => Body links_page)
             (mkParser "https://example.com" site_seeds [] words_file
                       [] None));
      [apply reach_init|]; reflexivity. }
  split; [exact N|]. split; [exact R|].
  apply (queue_invariant site_seeds words_file after_links_page N);
    [repeat constructor|exact R].
Defined.


Lemma collect_words_counts_ascii_words_witness :
  reachable [seed] words_file after_seed
  /\ word_frequency after_seed = [("see", 1)]
  /\ is_word "Cat," = Py.all Py.ascii_letter "Cat,"
  /\ word_frequency (collect_words_from_text mixed_text after_seed) =
     [("see", 2); ("the", 1); ("a", 1); ("cat", 2)]
  /\ get (word_frequency (collect_words_from_text mixed_text after_seed))
         "see" =
     1 + List.length (filter (fun w => Py.all Py.ascii_letter w
                                       && String.eqb (Py.lower w) "see")
                        (Py.split mixed_text))
  /\ Forall (fun k => lower_word k = true)
            (keys (word_frequency
                     (collect_words_from_text mixed_text after_seed))).
Proof.
  assert (R : reachable [seed] words_file after_seed).
  { apply (loop_body_reachable [seed] words_file
             (fun _ => Body links_page) crawler);
      [apply reach_init|]; reflexivity. }
  destruct (collect_words_counts_ascii_words [seed] words_file mixed_text
              after_seed R) as (_ & A & B & _ & _ & _ & _ & _ & K & _).
  split; [exact R|]. split; [reflexivity|].
  split; [apply A; vm_compute; tauto|].
  split; [reflexivity|]. split; [exact (B "see")|exact K].
Defined.



(** A word that the tokenizer splits is read back as another key, even
    with a threshold below every count. *)
Example split_word_is_read_back_joined :
  process_file contraction_tokenizer 0
    (write_records [("the", 2); ("cannot", 1)]) =
  Ok [("the", 2%Z); ("can not", 1%Z)].
Proof. reflexivity. Qed.

Example two_page_crawl :
  parse_all_links two_page_web 2 0 crawler = Some (Ok two_pages_done).
Proof. reflexivity. Qed.

(** The scenario of the specification: the table of the seed's page, and
    the lines written for it. *)
Example cat_page_records :
  word_frequency
    (fst (save_to_file (set_word_frequency (table_of_pages [cat_page])
                                           crawler))) =
  [("the", 2); ("cat", 1); ("sat", 1); ("on", 1); ("mat", 1)]
  /\ map Py.strip
       (file_lines
          (snd (save_to_file (set_word_frequency (table_of_pages [cat_page])
                                                 crawler)))) =
     ["the:2"; "cat:1"; "sat:1"; "on:1"; "mat:1"].
Proof. split; reflexivity. Qed.

(** * Further properties of the code *)

(** ** The classifier and the link discoverer *)

Section MoreCrawlerFacts.
Context {caps : Capabilities}.





End MoreCrawlerFacts.


(** ** What a crawl records *)

Section CrawlRecords.
Context {caps : Capabilities}.

Lemma loop_body_record (get : string -> response)
  (self self1 : EnglishWordsParser) (link : string) (rest : list string) :
  to_parse_links self = link :: rest ->
  loop_body get self = Ok self1 ->
  base_url self1 = base_url self
  /\ parsed_links self1 =
     parsed_links self
     ++ (if Py.nonempty (fetch_page_content get link) then [link] else [])
  /\ word_frequency self1 =
     (if Py.nonempty (fetch_page_content get link)
      then collect_words (fetch_page_content get link) (word_frequency self)
      else word_frequency self).
Proof.
  intros Q L; unfold loop_body in L; rewrite Q in L.
  destruct (Py.nonempty (fetch_page_content get link)).
  - destruct (find_links_and_add_to_parse _ _) as [found|e] eqn:F;
      [|discriminate].
    apply (find_links_result _ link) in F; [|reflexivity].
    injection L as <-. subst found.
    destruct (admit_links_fields link
                (find_all_href (fetch_page_content get link))
                (collect_words_from_text (fetch_page_content get link)
                   (set_current_link link (set_to_parse_links rest self))))
      as (B & P & W & _).
    cbn [base_url parsed_links word_frequency set_parsed_links].
    rewrite B, P, W. now repeat split.
  - injection L as <-. simpl; rewrite app_nil_r. now repeat split.
Qed.

Lemma crawl_record (web : Web) (n : nat) (self self' : EnglishWordsParser)
  (trace : list string) :
  crawl web n self trace self' ->
  base_url self' = base_url self
  /\ parsed_links self' = parsed_links self ++ fetched web n trace
  /\ word_frequency self' =
     fold_left (fun d text => collect_words text d)
               (fetched_pages web n trace) (word_frequency self).
Proof.
  induction 1 as [n self|n self link rest self1 trace self2 Q L _ IH].
  - simpl; rewrite app_nil_r; now repeat split.
  - destruct (loop_body_record _ _ _ _ _ Q L) as (B & P & W).
    destruct IH as (B' & P' & W'). rewrite B', P', W', B, P, W.
    cbn [fetched fetched_pages].
    destruct (Py.nonempty (fetch_page_content (web n) link));
      cbn [fold_left]; rewrite <- ?app_assoc, ?app_nil_r; now repeat split.
Qed.

Lemma get_collect_words_le (text : string) (d : table) (k : string) :
  get d k <= get (collect_words text d) k.
Proof.
  unfold collect_words.
  change (fun d w => if is_word w then incr (Py.lower w) d else d)
    with count_word.
  rewrite get_count_words; lia.
Qed.

Lemma get_pages_le (pages : list string) (d : table) (k : string) :
  get d k <= get (fold_left (fun d text => collect_words text d) pages d) k.
Proof.
  revert d; induction pages as [|text pages IH]; intros d; simpl; [lia|].
  etransitivity; [apply (get_collect_words_le text)|apply IH].
Qed.

(** X3. Over any run of the loop the base URL stays the same and the
    parsed links only grow: at the end they are the parsed links of the
    start followed by the dequeued links whose fetch gave a body that is
    not empty, each once per such fetch and in the order of the fetches. *)
Theorem crawl_records_fetched_links :
  forall (web : Web) (n : nat) (self self' : EnglishWordsParser)
         (trace : list string),
    crawl web n self trace self' ->
    base_url self' = base_url self
    /\ parsed_links self' = parsed_links self ++ fetched web n trace.
Proof.
  intros web n self self' trace C.
  destruct (crawl_record web n self self' trace C) as (B & P & _).
  now split.
Qed.

(** X4. Over any run of the loop the word table is the table of the start
    counted over the fetched bodies that are not empty, in the order of
    the fetches; so no count ever decreases. *)
Theorem crawl_counts_fetched_pages :
  forall (web : Web) (n : nat) (self self' : EnglishWordsParser)
         (trace : list string),
    crawl web n self trace self' ->
    word_frequency self' =
    fold_left (fun d text => collect_words text d)
              (fetched_pages web n trace) (word_frequency self)
    /\ (forall k, get (word_frequency self) k <= get (word_frequency self') k).
Proof.
  intros web n self self' trace C.
  destruct (crawl_record web n self self' trace C) as (_ & _ & W).
  split; [exact W|]. intros k; rewrite W; apply get_pages_le.
Qed.



End CrawlRecords.

Lemma crawl_records_fetched_links_witness :
  crawl two_page_web 0 crawler [seed; about] two_pages_done
  /\ base_url two_pages_done = base_url crawler
  /\ parsed_links two_pages_done =
     parsed_links crawler ++ fetched two_page_web 0 [seed; about].
Proof.
  assert (C : crawl two_page_web 0 crawler [seed; about] two_pages_done).
  { apply (crawl_step two_page_web 0 crawler seed [] after_seed);
      [reflexivity|reflexivity|].
    apply (crawl_step two_page_web 1 after_seed about [] two_pages_done);
      [reflexivity|reflexivity|]. apply crawl_stop. }
  split; [exact C|].
  exact (crawl_records_fetched_links two_page_web 0 crawler two_pages_done
           [seed; about] C).
Defined.

Lemma crawl_counts_fetched_pages_witness :
  crawl two_page_web 0 crawler [seed] after_seed
  /\ word_frequency after_seed =
     fold_left (fun d text => collect_words text d)
               (fetched_pages two_page_web 0 [seed]) (word_frequency crawler)
  /\ (forall k, get (word_frequency crawler) k
                <= get (word_frequency after_seed) k).
Proof.
  assert (C : crawl two_page_web 0 crawler [seed] after_seed).
  { apply (crawl_step two_page_web 0 crawler seed [] after_seed);
      [reflexivity|reflexivity|]. apply crawl_stop. }
  split; [exact C|].
  exact (crawl_counts_fetched_pages two_page_web 0 crawler after_seed
           [seed] C).
Defined.


(** ** More on the word table *)

Lemma insert_desc_front (x : string * nat) (l : table) :
  Forall (count_ge x) l -> insert_desc x l = x :: l.
Proof.
  destruct l as [|y l]; [reflexivity|]. intros F; inversion F; subst.
  simpl. unfold count_ge in *. now rewrite (proj2 (Nat.leb_le _ _)).
Qed.

Lemma sorted_of_sorted (l : table) :
  StronglySorted count_ge l -> sorted_by_count_desc l = l.
Proof.
  induction 1 as [|x l S IH F]; [reflexivity|].
  cbn [sorted_by_count_desc fold_right]. fold (sorted_by_count_desc l).
  rewrite IH. now apply insert_desc_front.
Qed.

Lemma sort_word_frequency_twice (self : EnglishWordsParser) :
  NoDup (keys (word_frequency self)) ->
  sort_word_frequency (sort_word_frequency self) = sort_word_frequency self.
Proof.
  intros N. unfold sort_word_frequency at 1.
  rewrite (sort_word_frequency_table self N).
  rewrite (sorted_of_sorted _ (sorted_sorted _)).
  rewrite dict_of_items_unique by now apply sorted_keys_unique.
  unfold sort_word_frequency, set_word_frequency; simpl.
  now rewrite dict_of_items_unique by now apply sorted_keys_unique.
Qed.

(** X6. Sorting a frequency table (distinct keys) changes no count, and
    sorting or saving a second time changes nothing: the sorted state is
    a fixed point of [sort_word_frequency], and [save_to_file] run on the
    saved state writes the same text again. *)
Theorem sort_keeps_counts_and_is_idempotent :
  forall (self : EnglishWordsParser),
    NoDup (keys (word_frequency self)) ->
    (forall k, get (word_frequency (sort_word_frequency self)) k =
               get (word_frequency self) k)
    /\ sort_word_frequency (sort_word_frequency self) =
       sort_word_frequency self
    /\ save_to_file (fst (save_to_file self)) = save_to_file self.
Proof.
  intros self N; split; [|split].
  - intros k; rewrite (sort_word_frequency_table self N); symmetry.
    apply get_perm; [apply sorted_perm|exact N].
  - now apply sort_word_frequency_twice.
  - unfold save_to_file; cbn [fst].
    now rewrite (sort_word_frequency_twice self N).
Qed.

Lemma sort_keeps_counts_and_is_idempotent_witness :
  let d := [("cat", 1); ("the", 2); ("sat", 1)] in
  NoDup (keys d)
  /\ (forall k, get (word_frequency (sort_word_frequency (example_parser d))) k
                = get d k)
  /\ sort_word_frequency (sort_word_frequency (example_parser d)) =
     sort_word_frequency (example_parser d)
  /\ save_to_file (fst (save_to_file (example_parser d))) =
     save_to_file (example_parser d).
Proof.
  intros d.
  assert (N : NoDup (keys d)) by (subst d; distinct_strings).
  split; [exact N|].
  exact (sort_keeps_counts_and_is_idempotent (example_parser d) N).
Defined.





Lemma split_from_space (a b tok : string) (c : ascii) :
  Py.isspace c = true ->
  Py.split_from tok (a ++ String c b)%string =
  Py.split_from tok a ++ Py.split b.
Proof.
  intros W; revert tok; induction a as [|x a IH]; intros tok;
    cbn [append Py.split_from].
  - rewrite W. now destruct (Py.nonempty tok).
  - destruct (Py.isspace x); [|apply IH].
    destruct (Py.nonempty tok); [cbn [app]; f_equal|]; apply IH.
Qed.

(** X8. Counting composes over white space: the words of two texts
    joined by a white-space character are counted as the first text and
    then the second, so a page counted whole and the same page counted in
    pieces cut at white space give the same table. *)
Theorem collect_words_of_joined_texts :
  forall (a b : string) (c : ascii) (d : table),
    Py.isspace c = true ->
    collect_words (a ++ String c b)%string d =
    collect_words b (collect_words a d).
Proof.
  intros a b c d W; unfold collect_words, Py.split.
  now rewrite (split_from_space a b EmptyString c W), fold_left_app.
Qed.

Lemma collect_words_of_joined_texts_witness :
  Py.isspace " "%char = true
  /\ collect_words ("The Cat" ++ String " "%char "sat on the Mat")%string [] =
     collect_words "sat on the Mat" (collect_words "The Cat" []).
Proof.
  split; [reflexivity|].
  exact (collect_words_of_joined_texts "The Cat" "sat on the Mat" " "%char []
           eq_refl).
Defined.

Lemma lower_ascii_char (c : ascii) :
  Py.char_isascii c = true ->
  Py.isspace (Py.char_lower c) = Py.isspace c
  /\ Py.char_isalpha (Py.char_lower c) = Py.char_isalpha c
  /\ Py.char_isascii (Py.char_lower c) = true.
Proof. by_cases_on_char c; intros _; repeat split. Qed.

Lemma lower_append (a b : string) :
  Py.lower (a ++ b)%string = (Py.lower a ++ Py.lower b)%string.
Proof. induction a as [|c a IH]; simpl; [reflexivity|now rewrite IH]. Qed.

Lemma split_from_lower (s tok : string) :
  Py.isascii s = true ->
  Py.split_from (Py.lower tok) (Py.lower s) =
  map Py.lower (Py.split_from tok s).
Proof.
  revert tok; induction s as [|c s IH]; intros tok A;
    cbn [Py.lower Py.split_from].
  - rewrite lower_nonempty. now destruct (Py.nonempty tok).
  - unfold Py.isascii in A; simpl in A.
    apply andb_true_iff in A as [Hc A].
    destruct (lower_ascii_char c Hc) as (-> & _).
    rewrite lower_nonempty. destruct (Py.isspace c).
    + destruct (Py.nonempty tok); cbn [map]; [f_equal|];
        apply (IH EmptyString A).
    + rewrite <- (IH _ A), lower_append. reflexivity.
Qed.

Lemma is_word_lower (w : string) :
  Py.isascii w = true -> is_word (Py.lower w) = is_word w.
Proof.
  unfold is_word, Py.isalpha, Py.isascii. rewrite lower_nonempty.
  intros A. f_equal; [f_equal|]; induction w as [|c w IH]; simpl in *;
    try reflexivity; apply andb_true_iff in A as [Hc A];
    destruct (lower_ascii_char c Hc) as (_ & E1 & E2);
    rewrite ?E1, ?E2, (IH A); try reflexivity.
  now rewrite Hc.
Qed.

Lemma split_from_ascii (s tok w : string) :
  Py.isascii tok = true -> Py.isascii s = true ->
  In w (Py.split_from tok s) -> Py.isascii w = true.
Proof.
  unfold Py.isascii.
  revert tok; induction s as [|c s IH]; simpl; intros tok T A H.
  - destruct (Py.nonempty tok); [|contradiction].
    destruct H as [<-|[]]; exact T.
  - apply andb_true_iff in A as [Hc A]. destruct (Py.isspace c).
    + destruct (Py.nonempty tok).
      * destruct H as [<-|H]; [exact T|]. now apply (IH EmptyString).
      * now apply (IH EmptyString).
    + apply (IH (tok ++ String c EmptyString)%string); try assumption.
      rewrite all_app, T; simpl; now rewrite Hc.
Qed.

Lemma count_words_lower (ws : list string) (d : table) :
  Forall (fun w => Py.isascii w = true) ws ->
  fold_left count_word (map Py.lower ws) d = fold_left count_word ws d.
Proof.
  revert d; induction ws as [|w ws IH]; intros d F; [reflexivity|].
  inversion F; subst. cbn [map fold_left].
  unfold count_word at 2 4.
  rewrite is_word_lower, lower_lower by assumption. now apply IH.
Qed.

(** X9. Counting does not see the case of a text: for an ASCII text, the
    text put in lower case first gives the same table. *)
Theorem collect_words_ignores_case :
  forall (text : string) (d : table),
    Py.isascii text = true ->
    collect_words (Py.lower text) d = collect_words text d.
Proof.
  intros text d A; unfold collect_words, Py.split.
  change (fun d w => if is_word w then incr (Py.lower w) d else d)
    with count_word.
  change EmptyString with (Py.lower EmptyString) at 1.
  rewrite (split_from_lower text EmptyString A).
  apply count_words_lower, Forall_forall; intros w H.
  now apply (split_from_ascii text EmptyString w).
Qed.

Lemma collect_words_ignores_case_witness :
  Py.isascii "The Cat sat on the Mat" = true
  /\ collect_words (Py.lower "The Cat sat on the Mat") [] =
     collect_words "The Cat sat on the Mat" [].
Proof.
  split; [reflexivity|].
  exact (collect_words_ignores_case "The Cat sat on the Mat" [] eq_refl).
Defined.

(** ** Reading the records: errors and the threshold *)

Lemma split_on_length (sep : ascii) (s : string) :
  List.length (Py.split_on sep s) = S (count_char sep s).
Proof.
  induction s as [|c s IH]; simpl; [reflexivity|].
  destruct (Ascii.eqb c sep); simpl; [now rewrite IH|].
  destruct (Py.split_on sep s) as [|f fs]; simpl in *; [discriminate|].
  exact IH.
Qed.

Lemma parse_line_raises (line : string) (e : exn) :
  parse_line line = Raise e -> e = ValueError.
Proof.
  unfold parse_line.
  destruct (Py.split_on ":"%char (Py.strip line)) as [|w [|f [|x fs]]];
    try (intros H; injection H as <-; reflexivity).
  destruct (int_of_str f); [discriminate|].
  intros H; injection H as <-; reflexivity.
Qed.

Lemma parse_line_colons (line : string) :
  count_char ":"%char (Py.strip line) <> 1 ->
  parse_line line = Raise ValueError.
Proof.
  intros N; unfold parse_line.
  pose proof (split_on_length ":"%char (Py.strip line)) as L.
  destruct (Py.split_on ":"%char (Py.strip line)) as [|w [|f [|x fs]]];
    try reflexivity.
  simpl in L; exfalso; apply N; lia.
Qed.

Lemma lstrip_blank (s : string) :
  Py.all Py.isspace s = true -> Py.lstrip s = EmptyString.
Proof.
  induction s as [|c s IH]; simpl; [reflexivity|].
  intros A; apply andb_true_iff in A as [Hc A]. now rewrite Hc, IH.
Qed.

Lemma process_lines_raises (word_tokenize : string -> list string)
  (min_frequency : Z) (ls : list string) (d : frequencies) :
  Exists (fun line => count_char ":"%char (Py.strip line) <> 1) ls ->
  process_lines word_tokenize min_frequency ls d = Raise ValueError.
Proof.
  intros E; revert d; induction E as [line ls B|line ls E IH]; intros d;
    cbn [process_lines].
  - now rewrite (parse_line_colons line B).
  - destruct (parse_line line) as [[w f]|e] eqn:P.
    + apply IH.
    + now rewrite (parse_line_raises line e P).
Qed.

(** X10. [process_file] raises [ValueError] as soon as the file has a
    line that, stripped, does not hold exactly one colon, whatever the
    tokenizer and the threshold; a blank line is such a line. *)
Theorem process_file_needs_one_colon_per_line :
  forall (word_tokenize : string -> list string) (min_frequency : Z)
         (content : string),
    (Exists (fun line => count_char ":"%char (Py.strip line) <> 1)
            (file_lines content) ->
     process_file word_tokenize min_frequency content = Raise ValueError)
    /\ (forall line, Py.all Py.isspace line = true ->
          count_char ":"%char (Py.strip line) <> 1).
Proof.
  intros word_tokenize min_frequency content; split.
  - apply process_lines_raises.
  - intros line A; unfold Py.strip. now rewrite (lstrip_blank line A).
Qed.

Lemma process_file_needs_one_colon_per_line_witness :
  let content :=
    (write_records [("the", 2)] ++ String LF EmptyString)%string in
  file_lines content =
  [("the:2" ++ String LF EmptyString)%string; String LF EmptyString]
  /\ process_file (fun w => [w]) 0 content = Raise ValueError.
Proof.
  intros content.
  split; [reflexivity|].
  apply (proj1 (process_file_needs_one_colon_per_line (fun w => [w]) 0%Z
                  content)).
  right; left. intros E; discriminate E.
Defined.

Lemma getitem_get_set (k k' : string) (v : nat) (d : table) :
  get (dict_set k v d) k' = if String.eqb k' k then v else get d k'.
Proof.
  induction d as [|[k0 v0] d IH]; simpl; [reflexivity|].
  destruct (String.eqb k k0) eqn:E; simpl.
  - apply String.eqb_eq in E; subst k0.
    now destruct (String.eqb k' k).
  - destruct (String.eqb k' k0) eqn:E'; [|exact IH].
    apply String.eqb_eq in E'; subst k0.
    now rewrite String.eqb_sym, E.
Qed.

Lemma keys_dict_set {V : Type} (k : string) (v : V)
  (d : list (string * V)) :
  keys (dict_set k v d) = if Py.mem k (keys d) then keys d else keys d ++ [k].
Proof.
  induction d as [|[k0 n] d IH]; simpl; [reflexivity|].
  destruct (String.eqb k k0); simpl; [reflexivity|].
  unfold keys in *; rewrite IH.
  now destruct (Py.mem k (map fst d)).
Qed.

Lemma NoDup_dict_set {V : Type} (k : string) (v : V)
  (d : list (string * V)) :
  NoDup (keys d) -> NoDup (keys (dict_set k v d)).
Proof.
  intros N; rewrite keys_dict_set.
  destruct (Py.mem k (keys d)) eqn:M; [assumption|].
  apply mem_not_In in M.
  apply NoDup_app; [assumption|repeat constructor; intros []|].
  intros x Hx [<-|[]]; contradiction.
Qed.

Lemma Forall_dict_set {V : Type} (Q : string * V -> Prop) (k : string)
  (v : V) (d : list (string * V)) :
  (forall k', Q (k', v)) -> Forall Q d -> Forall Q (dict_set k v d).
Proof.
  intros Qv; induction d as [|[k0 v0] d IH]; simpl; intros F.
  - repeat constructor; apply Qv.
  - inversion F; subst.
    destruct (String.eqb k k0); constructor; auto.
Qed.

Lemma process_lines_kept (word_tokenize : string -> list string)
  (min_frequency : Z) (ls : list string) (d d' : frequencies) :
  process_lines word_tokenize min_frequency ls d = Ok d' ->
  NoDup (keys d) ->
  Forall (fun kv => (min_frequency < snd kv)%Z) d ->
  NoDup (keys d')
  /\ Forall (fun kv => (min_frequency < snd kv)%Z) d'.
Proof.
  revert d; induction ls as [|line ls IH]; intros d H N F;
    cbn [process_lines] in H.
  - injection H as <-; now split.
  - destruct (parse_line line) as [[w f]|e]; [|discriminate].
    apply IH in H; [exact H| |];
      destruct (min_frequency <? f)%Z eqn:M; try assumption.
    + now apply NoDup_dict_set.
    + apply Forall_dict_set; [|assumption].
      intros k'; simpl; now apply Z.ltb_lt.
Qed.

(** X11. Whatever [process_file] returns holds each word once and only
    counts strictly above [min_frequency]: a record whose count equals
    the threshold is dropped.  The counts are the integers that [int]
    reads, negative ones included. *)
Theorem process_file_keeps_counts_above_threshold :
  forall (word_tokenize : string -> list string) (min_frequency : Z)
         (content : string) (d : frequencies),
    process_file word_tokenize min_frequency content = Ok d ->
    NoDup (keys d)
    /\ Forall (fun kv => (min_frequency < snd kv)%Z) d.
Proof.
  intros word_tokenize min_frequency content d H.
  apply (process_lines_kept _ _ _ [] d H); constructor.
Qed.

Lemma process_file_keeps_counts_above_threshold_witness :
  process_file (fun w => [w]) 3 signed_counts =
  Ok [("the", 12%Z); ("sat", 1000%Z)]
  /\ process_file (fun w => [w]) (-6) signed_counts =
     Ok [("the", 12%Z); ("cat", 3%Z); ("dog", (-5)%Z); ("sat", 1000%Z);
         ("mat", 3%Z)]
  /\ NoDup (keys [("the", 12%Z); ("sat", 1000%Z)])
  /\ Forall (fun kv => (3 < snd kv)%Z) [("the", 12%Z); ("sat", 1000%Z)].
Proof.
  assert (H : process_file (fun w => [w]) 3 signed_counts =
              Ok [("the", 12%Z); ("sat", 1000%Z)])
    by (vm_compute; reflexivity).
  split; [exact H|]. split; [vm_compute; reflexivity|].
  exact (process_file_keeps_counts_above_threshold (fun w => [w]) 3%Z
           signed_counts [("the", 12%Z); ("sat", 1000%Z)] H).
Defined.

(** ** The analyzer's dictionary steps *)

Lemma dict_fill_NoDup (items d : table) :
  NoDup (keys d) -> NoDup (keys (dict_fill items d)).
Proof.
  revert d; induction items as [|kv items IH]; intros d N; [assumption|].
  apply IH. now apply NoDup_dict_set.
Qed.

Lemma dict_fill_Forall (Q : nat -> Prop) (items d : table) :
  Forall (fun kv => Q (snd kv)) items ->
  Forall (fun kv => Q (snd kv)) d ->
  Forall (fun kv => Q (snd kv)) (dict_fill items d).
Proof.
  revert d; induction items as [|kv items IH]; intros d F G; [assumption|].
  inversion F; subst. apply IH; [assumption|].
  now apply Forall_dict_set.
Qed.

Lemma dict_fill_other (items d : table) (k : string) :
  ~ In k (keys items) -> get (dict_fill items d) k = get d k.
Proof.
  revert d; induction items as [|[k0 v0] items IH]; intros d N;
    [reflexivity|].
  cbn [dict_fill fold_left]. fold (dict_fill items (dict_set k0 v0 d)).
  rewrite IH by (intros H; apply N; now right).
  simpl; rewrite getitem_get_set.
  destruct (String.eqb k k0) eqn:E; [|reflexivity].
  apply String.eqb_eq in E; subst; exfalso; apply N; now left.
Qed.

Lemma dict_fill_last (items1 items2 d : table) (k : string) (v : nat) :
  ~ In k (keys items2) ->
  get (dict_fill (items1 ++ (k, v) :: items2) d) k = v.
Proof.
  intros N; unfold dict_fill; rewrite fold_left_app; cbn [fold_left].
  fold (dict_fill items2
          (dict_set k v (fold_left
                           (fun d kv => dict_set (fst kv) (snd kv) d)
                           items1 d))).
  rewrite dict_fill_other by assumption.
  simpl; now rewrite getitem_get_set, String.eqb_refl.
Qed.

(** X12. [lemmatize_words] does not add up the counts of the words that
    share a lemma: the lemma gets the count of the last of them in the
    dictionary's order, and every lemma is held once. *)
Theorem lemmatize_words_keeps_last_count :
  forall (lemmatize : string -> string) (before after : table)
         (word : string) (count : nat),
    (forall kv, In kv after -> lemmatize (fst kv) <> lemmatize word) ->
    get (Analyzer.lemmatize_words lemmatize
           (before ++ (word, count) :: after))
        (lemmatize word) = count
    /\ NoDup (keys (Analyzer.lemmatize_words lemmatize
                      (before ++ (word, count) :: after))).
Proof.
  intros lemmatize before after word count L; split.
  - unfold Analyzer.lemmatize_words, dict_of_items.
    rewrite map_app; cbn [map fst snd].
    apply (dict_fill_last _ _ []).
    unfold keys; rewrite map_map; intros H.
    apply in_map_iff in H as (kv & E & I). simpl in E.
    now apply (L kv I).
  - apply (dict_fill_NoDup _ []); constructor.
Qed.

Lemma lemmatize_words_keeps_last_count_witness :
  let plural (w : string) := if String.eqb w "cats" then "cat" else w in
  (forall kv, In kv [("on", 3)] -> plural (fst kv) <> plural "cats")
  /\ Analyzer.lemmatize_words plural [("cat", 5); ("cats", 2); ("on", 3)] =
     [("cat", 2); ("on", 3)]
  /\ get (Analyzer.lemmatize_words plural
            ([("cat", 5)] ++ ("cats", 2) :: [("on", 3)]))
         (plural "cats") = 2.
Proof.
  intros plural.
  assert (L : forall kv, In kv [("on", 3)] ->
                plural (fst kv) <> plural "cats").
  { intros kv [<-|[]] E; discriminate E. }
  split; [exact L|]. split; [reflexivity|].
  exact (proj1 (lemmatize_words_keeps_last_count plural [("cat", 5)]
                  [("on", 3)] "cats" 2 L)).
Defined.

Lemma filter_keys_NoDup (p : string * nat -> bool) (d : table) :
  NoDup (keys d) -> NoDup (keys (filter p d)).
Proof.
  induction d as [|kv d IH]; simpl; intros N; [constructor|].
  inversion N as [|? ? H N']; subst.
  destruct (p kv); simpl; [|now apply IH].
  constructor; [|now apply IH].
  intros I; apply H. unfold keys in *.
  apply in_map_iff in I as (x & E & Hx). apply filter_In in Hx as [Hx _].
  apply in_map_iff; now exists x.
Qed.

Lemma dict_of_filter (p : string * nat -> bool) (d : table) :
  NoDup (keys d) -> dict_of_items (filter p d) = filter p d.
Proof. intros N; now apply dict_of_items_unique, filter_keys_NoDup. Qed.

Lemma fill_filtered (p : string * nat -> bool) (d acc : table) :
  fold_left (fun acc kv => if p kv then dict_set (fst kv) (snd kv) acc
                           else acc) d acc =
  dict_fill (filter p d) acc.
Proof.
  revert acc; induction d as [|kv d IH]; intros acc; [reflexivity|].
  cbn [fold_left filter]. rewrite IH. now destruct (p kv).
Qed.

(** X13. On a dictionary (distinct keys) each of the three filters keeps
    exactly the entries that pass its test, in the order they had and
    with their counts: the words whose lower case is not a stop word, the
    words of two characters or more that WordNet knows, the words with a
    tag among the allowed parts of speech. *)
Theorem filters_keep_order_and_counts :
  forall {Synset : Type} (stop_words : list string)
         (synsets : string -> list Synset)
         (word_tokenize : string -> list string)
         (lemmatize : string -> string)
         (pos_tag : list string -> list (string * string))
         (allowed_parts_of_speech : list string) (d : table),
    NoDup (keys d) ->
    Analyzer.filter_stop_words stop_words d =
    filter (fun kv => negb (Py.mem (Py.lower (fst kv)) stop_words)) d
    /\ Analyzer.filter_valid_english_words synsets d =
       filter (fun kv => (1 <? String.length (fst kv))
                         && (0 <? List.length (synsets (fst kv)))) d
    /\ Analyzer.filter_by_part_of_speech word_tokenize lemmatize pos_tag
         allowed_parts_of_speech d =
       filter (fun kv =>
                 existsb (fun tag => Py.mem (snd tag) allowed_parts_of_speech)
                         (pos_tag (map lemmatize (word_tokenize (fst kv)))))
              d.
Proof.
  intros Synset stop_words synsets word_tokenize lemmatize pos_tag
         allowed d N.
  split; [|split].
  - now apply dict_of_filter.
  - now apply (dict_of_filter (Analyzer.valid_entry synsets)).
  - unfold Analyzer.filter_by_part_of_speech.
    rewrite (fill_filtered
               (Analyzer.allowed_entry word_tokenize lemmatize pos_tag
                  allowed)).
    now apply (dict_of_filter
                 (Analyzer.allowed_entry word_tokenize lemmatize pos_tag
                    allowed)).
Qed.

Lemma filters_keep_order_and_counts_witness :
  let d := [("the", 9); ("a", 7); ("cat", 2)] in
  let synsets (w : string) := if String.eqb w "the" then [] else [tt] in
  NoDup (keys d)
  /\ Analyzer.filter_stop_words ["the"] d = [("a", 7); ("cat", 2)]
  /\ Analyzer.filter_valid_english_words synsets d = [("cat", 2)]
  /\ Analyzer.filter_valid_english_words synsets d =
     filter (fun kv => (1 <? String.length (fst kv))
                       && (0 <? List.length (synsets (fst kv)))) d.
Proof.
  intros d synsets.
  assert (N : NoDup (keys d)) by (subst d; distinct_strings).
  split; [exact N|]. split; [reflexivity|]. split; [reflexivity|].
  exact (proj1 (proj2 (filters_keep_order_and_counts ["the"] synsets
                         (fun w => [w]) (fun w => w)
                         (fun ws => map (fun w => (w, "NN")) ws)
                         ["NN"] d N))).
Defined.

Lemma getitem_in (d : table) (k : string) (v : nat) :
  NoDup (keys d) -> In (k, v) d -> Analyzer.getitem d k = Some v.
Proof.
  induction d as [|[k0 v0] d IH]; simpl; intros N; [intros []|].
  intros [E|I].
  - injection E as -> ->. now rewrite String.eqb_refl.
  - inversion N as [|? ? H N']; subst.
    destruct (String.eqb k k0) eqn:E; [|now apply IH].
    apply String.eqb_eq in E; subst k0. exfalso; apply H.
    unfold keys; apply in_map_iff. now exists (k, v).
Qed.

Lemma keep_named_entries (l acc sorted_dict : table) :
  NoDup (keys (acc ++ l)) ->
  (forall kv, In kv l -> Analyzer.getitem sorted_dict (fst kv) = Some (snd kv)) ->
  Analyzer.keep_named (keys l) sorted_dict acc = Some (acc ++ filter named l).
Proof.
  revert acc; induction l as [|[k v] l IH]; intros acc N G.
  - simpl; now rewrite app_nil_r.
  - cbn [keys map fst Analyzer.keep_named filter]. fold (keys l).
    unfold named at 1; cbn [fst].
    assert (N1 : NoDup (keys (acc ++ l))).
    { unfold keys in *; rewrite map_app in *; simpl in N.
      now apply NoDup_remove_1 in N. }
    destruct (Py.nonempty k).
    + pose proof (G (k, v) (or_introl eq_refl)) as Gk.
      cbn [fst snd] in Gk; rewrite Gk.
      rewrite dict_set_fresh.
      * rewrite IH; [now rewrite <- app_assoc| |].
        -- now rewrite <- app_assoc.
        -- intros kv I; apply G; now right.
      * unfold keys in *; rewrite map_app in N; simpl in N.
        apply NoDup_remove_2 in N. intros H; apply N, in_or_app; now left.
    + apply IH; [exact N1|]. intros kv I; apply G; now right.
Qed.

Lemma sort_and_remove_duplicates_result (d : table) :
  NoDup (keys d) ->
  Analyzer.sort_and_remove_duplicates d =
  Some (filter named (sorted_by_count_desc d)).
Proof.
  intros N; unfold Analyzer.sort_and_remove_duplicates.
  pose proof (sorted_keys_unique d N) as N'.
  rewrite dict_of_items_unique by assumption.
  rewrite (keep_named_entries _ [] _); [reflexivity|exact N'|].
  intros [k v] I; now apply getitem_in.
Qed.

Lemma get_filter_named (l : table) (k : string) :
  Py.nonempty k = true -> get (filter named l) k = get l k.
Proof.
  intros K; induction l as [|[k0 v0] l IH]; simpl; [reflexivity|].
  unfold named at 1; cbn [fst].
  destruct (Py.nonempty k0) eqn:E; simpl.
  - now rewrite IH.
  - destruct (String.eqb k k0) eqn:E'; [|exact IH].
    apply String.eqb_eq in E'; subst; congruence.
Qed.

Lemma filter_sorted (p : string * nat -> bool) (l : table) :
  StronglySorted count_ge l -> StronglySorted count_ge (filter p l).
Proof.
  induction 1 as [|x l S IH F]; simpl; [constructor|].
  destruct (p x); [|exact IH]. constructor; [exact IH|].
  rewrite Forall_forall in *; intros y Hy.
  apply filter_In in Hy as [Hy _]; now apply F.
Qed.

(** X14. On a dictionary, [sort_and_remove_duplicates] never fails on a
    missing key; it returns the entries in descending order of count,
    equal counts in the order they had, and the only entry it removes is
    the one under the empty string: every other word keeps its count. *)
Theorem sort_and_remove_duplicates_drops_only_the_empty_word :
  forall (d : table),
    NoDup (keys d) ->
    exists d',
      Analyzer.sort_and_remove_duplicates d = Some d'
      /\ d' = filter named (sorted_by_count_desc d)
      /\ StronglySorted count_ge d'
      /\ (forall c, filter (has_count c) d' =
                    filter (has_count c) (filter named d))
      /\ (forall k, k <> EmptyString -> get d' k = get d k)
      /\ ~ In EmptyString (keys d').
Proof.
  intros d N; exists (filter named (sorted_by_count_desc d)).
  split; [now apply sort_and_remove_duplicates_result|].
  split; [reflexivity|]. split; [apply filter_sorted, sorted_sorted|].
  split; [|split].
  - intros c.
    assert (E : forall l, filter (has_count c) (filter named l) =
                          filter named (filter (has_count c) l)).
    { induction l as [|x l IH]; simpl; [reflexivity|].
      destruct (named x) eqn:A, (has_count c x) eqn:B; simpl;
        rewrite ?A, ?B, IH; reflexivity. }
    now rewrite !E, sorted_stable.
  - intros k K. rewrite get_filter_named by (destruct k; [congruence|reflexivity]).
    symmetry; apply get_perm; [apply sorted_perm|exact N].
  - unfold keys; intros H. apply in_map_iff in H as ([k v] & E & I).
    simpl in E; subst k. apply filter_In in I as [_ I]. discriminate I.
Qed.

Lemma sort_and_remove_duplicates_drops_only_the_empty_word_witness :
  let d := [("cat", 1); ("", 4); ("the", 2); ("sat", 1)] in
  NoDup (keys d)
  /\ Analyzer.sort_and_remove_duplicates d =
     Some [("the", 2); ("cat", 1); ("sat", 1)]
  /\ exists d',
       Analyzer.sort_and_remove_duplicates d = Some d'
       /\ d' = filter named (sorted_by_count_desc d)
       /\ StronglySorted count_ge d'
       /\ (forall c, filter (has_count c) d' =
                     filter (has_count c) (filter named d))
       /\ (forall k, k <> EmptyString -> get d' k = get d k)
       /\ ~ In EmptyString (keys d').
Proof.
  intros d.
  assert (N : NoDup (keys d)) by (subst d; distinct_strings).
  split; [exact N|]. split; [reflexivity|].
  exact (sort_and_remove_duplicates_drops_only_the_empty_word d N).
Defined.

Lemma counts_of_kept (m : nat) (d0 : frequencies) :
  Forall (fun kv => (Z.of_nat m < snd kv)%Z) d0 ->
  frequencies_of (Analyzer.counts_of d0) = d0
  /\ Forall (fun kv => m < snd kv) (Analyzer.counts_of d0).
Proof.
  induction 1 as [|[k v] d0 H F [IH1 IH2]]; [split; constructor|].
  simpl in H; split.
  - cbn [Analyzer.counts_of frequencies_of map fst snd].
    fold (Analyzer.counts_of d0); fold (frequencies_of (Analyzer.counts_of d0)).
    rewrite IH1, Z2Nat.id by lia. reflexivity.
  - constructor; [simpl; lia|exact IH2].
Qed.

Lemma analyzer_steps_kept {Synset : Type}
  (word_tokenize : string -> list string) (lemmatize : string -> string)
  (pos_tag : list string -> list (string * string))
  (synsets : string -> list Synset) (allowed : list string)
  (Q : nat -> Prop) (d1 : table) :
  Forall (fun kv => Q (snd kv)) d1 ->
  NoDup (keys (Analyzer.filter_by_part_of_speech word_tokenize lemmatize
                 pos_tag allowed
                 (Analyzer.lemmatize_words lemmatize
                    (Analyzer.filter_valid_english_words synsets d1))))
  /\ Forall (fun kv => Q (snd kv))
        (Analyzer.filter_by_part_of_speech word_tokenize lemmatize
           pos_tag allowed
           (Analyzer.lemmatize_words lemmatize
              (Analyzer.filter_valid_english_words synsets d1))).
Proof.
  intros F0.
  assert (F1 : Forall (fun kv => Q (snd kv))
                      (Analyzer.filter_valid_english_words synsets d1)).
  { apply (dict_fill_Forall Q _ []); [|constructor].
    rewrite Forall_forall in *; intros kv I.
    apply filter_In in I as [I _]; now apply F0. }
  assert (F2 : Forall (fun kv => Q (snd kv))
                 (Analyzer.lemmatize_words lemmatize
                    (Analyzer.filter_valid_english_words synsets d1))).
  { apply (dict_fill_Forall Q _ []); [|constructor].
    rewrite Forall_map; simpl. exact F1. }
  set (d2 := Analyzer.lemmatize_words lemmatize
               (Analyzer.filter_valid_english_words synsets d1)) in *.
  set (d3 := Analyzer.filter_by_part_of_speech word_tokenize lemmatize
               pos_tag allowed d2) in *.
  assert (E3 : d3 = dict_fill
                      (filter (Analyzer.allowed_entry word_tokenize
                                 lemmatize pos_tag allowed) d2) [])
    by apply fill_filtered.
  split.
  - rewrite E3; apply dict_fill_NoDup; constructor.
  - rewrite E3; apply dict_fill_Forall; [|constructor].
    rewrite Forall_forall in *; intros kv I.
    apply filter_In in I as [I _]; now apply F2.
Qed.

(** X15. The script of the analyzer, with a threshold that is not
    negative: once [process_file] has read the file no later step raises,
    and the counts it kept are natural numbers; the text written is one
    record per entry of the final dictionary, and that dictionary holds
    each word once, no empty word, counts strictly above [min_frequency]
    only, in descending order of count. *)
Theorem analyzer_output_is_sorted_above_threshold :
  forall {Synset : Type} (word_tokenize : string -> list string)
         (lemmatize : string -> string)
         (pos_tag : list string -> list (string * string))
         (synsets : string -> list Synset)
         (min_frequency : nat) (allowed_parts_of_speech : list string)
         (content : string),
    (forall d0,
       process_file word_tokenize (Z.of_nat min_frequency) content = Ok d0 ->
       frequencies_of (Analyzer.counts_of d0) = d0
       /\ exists d text,
            Analyzer.run word_tokenize lemmatize pos_tag synsets
              min_frequency allowed_parts_of_speech content =
            Some (d, text))
    /\ (forall e,
          process_file word_tokenize (Z.of_nat min_frequency) content =
          Raise e ->
          Analyzer.run word_tokenize lemmatize pos_tag synsets
            min_frequency allowed_parts_of_speech content = None)
    /\ (forall d text,
          Analyzer.run word_tokenize lemmatize pos_tag synsets
            min_frequency allowed_parts_of_speech content =
          Some (d, text) ->
          text = write_records d
          /\ NoDup (keys d)
          /\ StronglySorted count_ge d
          /\ Forall (fun kv => Py.nonempty (fst kv) = true
                               /\ min_frequency < snd kv) d).
Proof.
  intros Synset word_tokenize lemmatize pos_tag synsets m allowed content.
  unfold Analyzer.run.
  destruct (process_file word_tokenize (Z.of_nat m) content) as [d0|e]
    eqn:P.
  - destruct (process_lines_kept _ _ _ [] d0 P (NoDup_nil _) (Forall_nil _))
      as [_ F0].
    destruct (counts_of_kept m d0 F0) as [E0 F1].
    destruct (analyzer_steps_kept word_tokenize lemmatize pos_tag synsets
                allowed (fun v => m < v) _ F1) as [N3 F3].
    set (d3 := Analyzer.filter_by_part_of_speech word_tokenize lemmatize
                 pos_tag allowed _) in *.
    unfold Analyzer.save_to_file.
    rewrite (sort_and_remove_duplicates_result d3 N3).
    split; [|split].
    + intros d0' [= <-]. split; [exact E0|]. eexists; eexists; reflexivity.
    + intros e' H; discriminate H.
    + intros d text H. injection H as Ed Et; subst d text.
      split; [reflexivity|]. split; [|split].
      * now apply filter_keys_NoDup, sorted_keys_unique.
      * apply filter_sorted, sorted_sorted.
      * rewrite Forall_forall in *; intros kv I.
        apply filter_In in I as [I K]. split; [exact K|].
        apply F3. eapply Permutation_in; [|exact I].
        symmetry; apply sorted_perm.
  - split; [|split].
    + intros d0 H; discriminate H.
    + reflexivity.
    + intros d text H; discriminate H.
Qed.

Lemma analyzer_output_is_sorted_above_threshold_witness :
  process_file (fun w => [w]) 2 analyzer_input =
  Ok [("the", 5%Z); ("cats", 3%Z); ("a", 9%Z)]
  /\ Analyzer.run (fun w => [w]) plural_lemma noun_tagger any_synsets 2
       ["NN"] analyzer_input =
     Some ([("the", 5); ("cat", 3)], write_records [("the", 5); ("cat", 3)])
  /\ NoDup (keys [("the", 5); ("cat", 3)])
  /\ StronglySorted count_ge [("the", 5); ("cat", 3)]
  /\ Forall (fun kv => Py.nonempty (fst kv) = true /\ 2 < snd kv)
            [("the", 5); ("cat", 3)].
Proof.
  assert (P : process_file (fun w => [w]) 2 analyzer_input =
              Ok [("the", 5%Z); ("cats", 3%Z); ("a", 9%Z)])
    by (vm_compute; reflexivity).
  assert (H : Analyzer.run (fun w => [w]) plural_lemma noun_tagger
                any_synsets 2 ["NN"] analyzer_input =
              Some ([("the", 5); ("cat", 3)],
                    write_records [("the", 5); ("cat", 3)]))
    by (vm_compute; reflexivity).
  split; [exact P|]. split; [exact H|].
  exact (proj2 (proj2 (proj2 (analyzer_output_is_sorted_above_threshold
                  (fun w => [w]) plural_lemma noun_tagger any_synsets 2
                  ["NN"] analyzer_input)) [("the", 5); ("cat", 3)]
                  (write_records [("the", 5); ("cat", 3)]) H)).
Defined.

(** ** The line sorter *)

Lemma ends_cons (c d : ascii) (s : string) :
  ends_with_newline (String c (String d s)) = ends_with_newline (String d s).
Proof. reflexivity. Qed.

Lemma universal_newlines_cons (c : ascii) (s : string) :
  exists d t, universal_newlines (String c s) = String d t.
Proof.
  simpl. destruct (Ascii.eqb c CR).
  - destruct s as [|c' s']; [now eexists; eexists|].
    destruct (Ascii.eqb c' LF); now eexists; eexists.
  - now eexists; eexists.
Qed.

Lemma universal_newlines_two_chars (c d : ascii) (s : string) :
  universal_newlines (String c (String d s)) =
  if Ascii.eqb c CR
  then (if Ascii.eqb d LF then String LF (universal_newlines s)
        else String LF (universal_newlines (String d s)))
  else String c (universal_newlines (String d s)).
Proof. reflexivity. Qed.

Lemma universal_newlines_two (s : string) :
  (Py.all not_cr (universal_newlines s) = true
   /\ (ends_with_newline s = true ->
       ends_with_newline (universal_newlines s) = true))
  /\ (forall c,
        Py.all not_cr (universal_newlines (String c s)) = true
        /\ (ends_with_newline (String c s) = true ->
            ends_with_newline (universal_newlines (String c s)) = true)).
Proof.
  induction s as [|d s [[A E] IH]].
  - split; [now split|]. intros c.
    cbn [universal_newlines Py.all ends_with_newline].
    destruct (Ascii.eqb c CR) eqn:C.
    + now split.
    + cbn [Py.all ends_with_newline]. unfold not_cr; rewrite C.
      split; [reflexivity|]. now rewrite orb_false_r.
  - split; [apply IH|]. intros c.
    destruct (IH d) as [A' E'].
    destruct (universal_newlines_cons d s) as (x & t & U).
    rewrite universal_newlines_two_chars, ends_cons.
    destruct (Ascii.eqb c CR) eqn:C.
    + destruct (Ascii.eqb d LF) eqn:D.
      * cbn [Py.all]. rewrite A. split; [reflexivity|].
        intros H. destruct s as [|e s]; [reflexivity|].
        destruct (universal_newlines_cons e s) as (y & u & V).
        rewrite V, ends_cons, <- V. apply E.
        now rewrite ends_cons in H.
      * cbn [Py.all]. rewrite A'. split; [reflexivity|].
        intros H. rewrite U, ends_cons, <- U. now apply E'.
    + cbn [Py.all]. rewrite A'. unfold not_cr at 1; rewrite C.
      split; [reflexivity|].
      intros H. rewrite U, ends_cons, <- U. now apply E'.
Qed.

Lemma universal_newlines_clean (s : string) :
  Py.all not_cr (universal_newlines s) = true
  /\ (ends_with_newline s = true ->
      ends_with_newline (universal_newlines s) = true).
Proof. apply universal_newlines_two. Qed.

Lemma whole_line_end (cur : string) :
  Py.all plain cur = true ->
  whole_line (cur ++ String LF EmptyString) = true.
Proof.
  induction cur as [|c cur IH]; [reflexivity|].
  intros A; simpl in A; apply andb_true_iff in A as [Hc A].
  cbn [append]. destruct cur as [|c' cur].
  - cbn [append whole_line]. unfold plain in Hc. now rewrite Hc.
  - change (whole_line (String c ((String c' cur) ++ String LF "")) = true).
    cbn [append whole_line]. cbn [append] in IH.
    unfold plain in Hc. rewrite Hc. now apply IH.
Qed.

Lemma lines_from_whole (t cur : string) :
  Py.all plain cur = true ->
  Py.all not_cr t = true ->
  ends_with_newline t = true ->
  (t = EmptyString -> cur = EmptyString) ->
  Forall (fun l => whole_line l = true) (lines_from cur t).
Proof.
  revert cur; induction t as [|c t IH]; intros cur P A E Z.
  - rewrite (Z eq_refl); constructor.
  - cbn [lines_from]. simpl in A; apply andb_true_iff in A as [Hc A].
    destruct (Ascii.eqb c LF) eqn:L.
    + constructor; [now apply whole_line_end|].
      apply IH; try assumption; [reflexivity| |reflexivity].
      destruct t; [reflexivity|now rewrite ends_cons in E].
    + destruct t as [|d t].
      * simpl in E. rewrite L in E. unfold not_cr in Hc.
        apply negb_true_iff in Hc. now rewrite Hc in E.
      * apply IH; try assumption; try discriminate.
        rewrite all_app, P; simpl. unfold plain; rewrite L.
        unfold not_cr in Hc; now rewrite Hc.
Qed.

Lemma whole_line_clean (l : string) :
  whole_line l = true -> Py.all not_cr l = true.
Proof.
  induction l as [|c l IH]; [discriminate|].
  destruct l as [|d l].
  - simpl. intros H. apply Ascii.eqb_eq in H; subst. reflexivity.
  - intros H. change (negb (Ascii.eqb c LF) && negb (Ascii.eqb c CR)
                      && whole_line (String d l) = true) in H.
    apply andb_true_iff in H as [H W]. apply andb_true_iff in H as [_ H].
    change (not_cr c && Py.all not_cr (String d l) = true).
    unfold not_cr at 1. now rewrite H, (IH W).
Qed.

Lemma lines_from_whole_line (l cur rest : string) :
  whole_line l = true ->
  lines_from cur (l ++ rest) = (cur ++ l)%string :: lines_from EmptyString rest.
Proof.
  revert cur; induction l as [|c l IH]; intros cur W; [discriminate|].
  destruct l as [|d l].
  - simpl in W. cbn [append lines_from]. rewrite W.
    apply Ascii.eqb_eq in W; now subst.
  - change (negb (Ascii.eqb c LF) && negb (Ascii.eqb c CR)
            && whole_line (String d l) = true) in W.
    apply andb_true_iff in W as [H W]. apply andb_true_iff in H as [H _].
    apply negb_true_iff in H.
    change ((String c (String d l) ++ rest)%string)
      with (String c (String d l ++ rest)%string).
    cbn [lines_from]. rewrite H, (IH _ W), append_assoc. reflexivity.
Qed.

Lemma file_lines_of_whole_lines (ls : list string) :
  Forall (fun l => whole_line l = true) ls ->
  file_lines (String.concat EmptyString ls) = ls.
Proof.
  intros F; unfold file_lines. rewrite universal_newlines_id.
  - induction F as [|l ls W F IH]; [reflexivity|].
    rewrite concat_cons, (lines_from_whole_line l EmptyString _ W).
    now rewrite IH.
  - induction F as [|l ls W F IH]; [reflexivity|].
    rewrite concat_cons, all_app, IH, andb_true_r.
    now apply whole_line_clean.
Qed.

Lemma file_lines_whole (content : string) :
  ends_with_newline content = true ->
  Forall (fun l => whole_line l = true) (file_lines content).
Proof.
  intros E; destruct (universal_newlines_clean content) as [A E'].
  apply lines_from_whole; auto.
Qed.

Lemma insert_line_perm (x : string) (l : list string) :
  Permutation (x :: l) (insert_line x l).
Proof.
  induction l as [|y l IH]; simpl; [reflexivity|].
  destruct (String.leb x y); [reflexivity|].
  rewrite perm_swap; now constructor.
Qed.

Lemma sorted_lines_perm (l : list string) : Permutation l (sorted_lines l).
Proof.
  induction l as [|x l IH]; simpl; [constructor|].
  rewrite <- insert_line_perm; now constructor.
Qed.

Lemma insert_line_sorted (x : string) (l : list string) :
  Sorted line_le l -> Sorted line_le (insert_line x l).
Proof.
  induction l as [|y l IH]; simpl; intros S.
  - repeat constructor.
  - destruct (String.leb x y) eqn:E.
    + constructor; [assumption|]. now constructor.
    + inversion S as [|? ? S' H]; subst.
      constructor; [now apply IH|].
      assert (Y : line_le y x).
      { destruct (String.leb_total x y) as [T|T]; [congruence|exact T]. }
      destruct l as [|z l]; simpl; [now constructor|].
      destruct (String.leb x z); constructor; [exact Y|].
      now inversion H.
Qed.

Lemma sorted_lines_sorted (l : list string) : Sorted line_le (sorted_lines l).
Proof.
  induction l as [|x l IH]; simpl; [constructor|].
  now apply insert_line_sorted.
Qed.

Lemma sorted_lines_of_sorted (l : list string) :
  Sorted line_le l -> sorted_lines l = l.
Proof.
  induction 1 as [|x l S IH H]; [reflexivity|].
  cbn [sorted_lines fold_right]. fold (sorted_lines l). rewrite IH.
  destruct H as [|y l H]; [reflexivity|]. simpl. now rewrite H.
Qed.

(** X16. [sort_and_save] leaves the files as they are when the input file
    is missing.  When the input ends with a line end (or is empty), the
    output file holds the lines of the input, each exactly as often as
    in the input, in ascending order; no other file changes; and sorting
    the output file onto itself writes the same text again. *)
Theorem sort_and_save_sorts_the_lines :
  forall (fs : FileSystem) (input_filename output_filename : string),
    (fs input_filename = None ->
     sort_and_save fs input_filename output_filename = fs)
    /\ (forall content,
          fs input_filename = Some content ->
          ends_with_newline content = true ->
          exists text,
            sort_and_save fs input_filename output_filename output_filename
            = Some text
            /\ file_lines text = sorted_lines (file_lines content)
            /\ Permutation (file_lines content) (file_lines text)
            /\ Sorted line_le (file_lines text)
            /\ sort_and_save
                 (sort_and_save fs input_filename output_filename)
                 output_filename output_filename output_filename
               = Some text
            /\ (forall other, other <> output_filename ->
                  sort_and_save fs input_filename output_filename other =
                  fs other)).
Proof.
  intros fs input output; split.
  - intros H; unfold sort_and_save; now rewrite H.
  - intros content H E.
    set (text := String.concat EmptyString (sorted_lines (file_lines content))).
    assert (W : Forall (fun l => whole_line l = true)
                       (sorted_lines (file_lines content))).
    { eapply Permutation_Forall; [apply sorted_lines_perm|].
      now apply file_lines_whole. }
    assert (L : file_lines text = sorted_lines (file_lines content))
      by now apply file_lines_of_whole_lines.
    assert (O : sort_and_save fs input output output = Some text).
    { unfold sort_and_save, write_file; rewrite H.
      now rewrite String.eqb_refl. }
    exists text. split; [exact O|]. split; [exact L|].
    split; [rewrite L; apply sorted_lines_perm|].
    split; [rewrite L; apply sorted_lines_sorted|]. split.
    + unfold sort_and_save at 1. rewrite O. unfold write_file.
      rewrite String.eqb_refl, L.
      now rewrite (sorted_lines_of_sorted _ (sorted_lines_sorted _)).
    + intros other N. unfold sort_and_save, write_file; rewrite H.
      destruct (String.eqb other output) eqn:B; [|reflexivity].
      apply String.eqb_eq in B; contradiction.
Qed.

Lemma sort_and_save_sorts_the_lines_witness :
  example_files "output.txt" = Some two_lines
  /\ ends_with_newline two_lines = true
  /\ sort_and_save example_files "output.txt" "output_sorted.txt"
       "output_sorted.txt" =
     Some ("apple:3" ++ String LF ("pear:1" ++ String LF EmptyString))%string
  /\ exists text,
       sort_and_save example_files "output.txt" "output_sorted.txt"
         "output_sorted.txt" = Some text
       /\ file_lines text = sorted_lines (file_lines two_lines)
       /\ Permutation (file_lines two_lines) (file_lines text)
       /\ Sorted line_le (file_lines text)
       /\ sort_and_save
            (sort_and_save example_files "output.txt" "output_sorted.txt")
            "output_sorted.txt" "output_sorted.txt" "output_sorted.txt"
          = Some text
       /\ (forall other, other <> "output_sorted.txt" ->
             sort_and_save example_files "output.txt" "output_sorted.txt"
               other = example_files other).
Proof.
  split; [reflexivity|]. split; [reflexivity|]. split; [reflexivity|].
  exact (proj2 (sort_and_save_sorts_the_lines example_files "output.txt"
                  "output_sorted.txt") two_lines eq_refl eq_refl).
Defined.

(** When the last line of the input has no line end, the sort glues it to
    the line that follows it in the order. *)
Example open_last_line_is_glued :
  file_lines two_lines_open =
  [("pear:1" ++ String LF EmptyString)%string; "apple:3"]
  /\ String.concat EmptyString (sorted_lines (file_lines two_lines_open)) =
     ("apple:3pear:1" ++ String LF EmptyString)%string.
Proof. split; reflexivity. Qed.
